(** * Authority: role-based access control over a relational store

    A shallow embedding of [authority.go] (package [authority]) and of the
    four row types it stores.  The bun query builder is represented by the
    handful of round trips the package issues -- [Scan] into a struct, [Scan]
    into a slice, [Exists], [Exec] of a select, of an insert and of a delete --
    over an explicit database value.  Every round trip may fail with a driver
    error; the sequence of such failures is part of the state, so that the
    error handling of the package can be run as it is written. *)

From Stdlib Require Import List String NArith Bool Lia.
Import ListNotations.

Local Open Scope string_scope.
Local Open Scope N_scope.

Set Implicit Arguments.

(** ** Errors *)

(** The package-level sentinel errors (authority.go, lines 28-37), the
    sentinel [sql.ErrNoRows] of database/sql, and any other error a driver
    reports, identified by its message. *)
Inductive error : Type :=
| ErrPermissionInUse
| ErrPermissionNotFound
| ErrRoleAlreadyAssigned
| ErrRoleInUse
| ErrRoleNotFound
| ErrRolePermissionNotFound
| ErrUserRoleNotFound
| ErrRoleExists
| sql_ErrNoRows
| driver_error (msg : string).

Definition error_eq_dec (e1 e2 : error) : {e1 = e2} + {e1 <> e2}.
Proof. decide equality. apply string_dec. Defined.

(** [errors.Is err target] for sentinel targets: the errors are compared. *)
Definition errors_Is (err target : error) : bool :=
  if error_eq_dec err target then true else false.

(** A Go result pair (pointer to [T], [error]) as the package builds it: either
    [(&v, nil)], written [Ok v], or [(nil, e)], written [Err e]. *)
Inductive result (A : Type) : Type :=
| Ok (v : A)
| Err (e : error).
Arguments Ok {A} v.
Arguments Err {A} e.

(** ** Rows *)

(** [uint] columns hold natural numbers; the package never does arithmetic on
    them, it only compares them. *)
Record Role : Type := mkRole
  { Role_ID : N; Role_Name : string; Role_Title : string }.

Record Permission : Type := mkPermission
  { Permission_ID : N; Permission_Name : string; Permission_Title : string }.

Record RolePermission : Type := mkRolePermission
  { RolePermission_ID : N;
    RolePermission_RoleID : N;
    RolePermission_PermissionID : N }.

Record UserRole : Type := mkUserRole
  { UserRole_ID : N; UserRole_UserID : N; UserRole_RoleID : N }.

(** The zero values of the four struct types ([var role Role]). *)
Definition Role_zero : Role := mkRole 0 "" "".
Definition Permission_zero : Permission := mkPermission 0 "" "".
Definition RolePermission_zero : RolePermission := mkRolePermission 0 0 0.
Definition UserRole_zero : UserRole := mkUserRole 0 0 0.

(** ** The database *)

(** The four tables in storage order, and the counter behind each
    autoincrement primary key. *)
Record DB : Type := mkDB
  { roles : list Role;
    permissions : list Permission;
    role_permissions : list RolePermission;
    user_roles : list UserRole;
    roles_id_seq : N;
    permissions_id_seq : N;
    role_permissions_id_seq : N;
    user_roles_id_seq : N }.

Definition empty_DB : DB := mkDB [] [] [] [] 1 1 1 1.

(** The state an operation runs in: the database and the failures the driver
    is going to report, one entry per round trip ([None]: the round trip goes
    through).  When the list is used up no round trip fails any more. *)
Record World : Type := mkWorld
  { db : DB; faults : list (option string) }.

(** A world whose storage never fails. *)
Definition quiet (d : DB) : World := mkWorld d [].

(** ** State monad *)

Definition M (A : Type) : Type := World -> A * World.

Definition ret {A : Type} (a : A) : M A := fun w => (a, w).

Definition bind {A B : Type} (m : M A) (k : A -> M B) : M B :=
  fun w => let (a, w') := m w in k a w'.

Declare Scope auth_scope.
Delimit Scope auth_scope with auth.
Notation "x <- m ;; k" := (bind m (fun x => k))
  (at level 100, m at next level, right associativity) : auth_scope.
Notation "' p <- m ;; k" := (bind m (fun x => match x with p => k end))
  (at level 100, p pattern, m at next level, right associativity) : auth_scope.
Local Open Scope auth_scope.

(** ** Round trips *)

(** One statement sent to the store.  If the driver fails the statement has
    no effect and the caller gets [failed e]; otherwise the statement runs on
    the database. *)
Definition round_trip {A : Type} (failed : error -> A) (stmt : DB -> A * DB)
  : M A :=
  fun w =>
    match faults w with
    | Some msg :: rest => (failed (driver_error msg), mkWorld (db w) rest)
    | None :: rest => let (a, d) := stmt (db w) in (a, mkWorld d rest)
    | [] => let (a, d) := stmt (db w) in (a, mkWorld d [])
    end.

(** [NewSelect().Model(&row)...Scan(ctx)] with a struct destination: the
    first matching row is stored in the destination; with no matching row the
    destination keeps its zero value and the error is [sql.ErrNoRows]. *)
Definition Scan_row {R : Type} (table : DB -> list R) (where_ : R -> bool)
    (zero : R) : M (R * option error) :=
  round_trip (fun e => (zero, Some e))
    (fun d => match find where_ (table d) with
              | Some r => ((r, None), d)
              | None => ((zero, Some sql_ErrNoRows), d)
              end).

(** [NewSelect().Model(&rows)...Scan(ctx)] with a slice destination: all
    matching rows, and no error when there is none. *)
Definition Scan_rows {R : Type} (table : DB -> list R) (where_ : R -> bool)
  : M (list R * option error) :=
  round_trip (fun e => ([], Some e))
    (fun d => ((filter where_ (table d), None), d)).

(** [NewSelect()...Exists(ctx)]. *)
Definition Exists {R : Type} (table : DB -> list R) (where_ : R -> bool)
  : M (bool * option error) :=
  round_trip (fun e => (false, Some e))
    (fun d => ((existsb where_ (table d), None), d)).

(** [NewSelect()...Exec(ctx)]: the select is run and its rows are dropped. *)
Definition Select_Exec {R : Type} (table : DB -> list R) (where_ : R -> bool)
  : M (option error) :=
  round_trip (fun e => Some e) (fun d => (None, d)).

(** Inserts.  The [ID] field of the inserted struct is zero, so the store
    assigns the next value of the table's sequence.  [name] is declared
    [unique] for roles and permissions (models, struct tags): inserting a
    name that is already stored is refused by the store. *)
Definition Insert_Role (name : string) : M (option error) :=
  round_trip (fun e => Some e)
    (fun d =>
       if existsb (fun r => Role_Name r =? name)%string (roles d)
       then (Some (driver_error "unique constraint: roles.name"), d)
       else (None,
             mkDB (roles d ++ [mkRole (roles_id_seq d) name ""])
                  (permissions d) (role_permissions d) (user_roles d)
                  (roles_id_seq d + 1) (permissions_id_seq d)
                  (role_permissions_id_seq d) (user_roles_id_seq d))).

Definition Insert_Permission (name : string) : M (option error) :=
  round_trip (fun e => Some e)
    (fun d =>
       if existsb (fun p => Permission_Name p =? name)%string (permissions d)
       then (Some (driver_error "unique constraint: permissions.name"), d)
       else (None,
             mkDB (roles d)
                  (permissions d ++ [mkPermission (permissions_id_seq d) name ""])
                  (role_permissions d) (user_roles d)
                  (roles_id_seq d) (permissions_id_seq d + 1)
                  (role_permissions_id_seq d) (user_roles_id_seq d))).

Definition Insert_RolePermission (roleID permID : N) : M (option error) :=
  round_trip (fun e => Some e)
    (fun d =>
       (None,
        mkDB (roles d) (permissions d)
             (role_permissions d ++
                [mkRolePermission (role_permissions_id_seq d) roleID permID])
             (user_roles d)
             (roles_id_seq d) (permissions_id_seq d)
             (role_permissions_id_seq d + 1) (user_roles_id_seq d))).

Definition Insert_UserRole (userID roleID : N) : M (option error) :=
  round_trip (fun e => Some e)
    (fun d =>
       (None,
        mkDB (roles d) (permissions d) (role_permissions d)
             (user_roles d ++ [mkUserRole (user_roles_id_seq d) userID roleID])
             (roles_id_seq d) (permissions_id_seq d)
             (role_permissions_id_seq d) (user_roles_id_seq d + 1))).

(** Membership of an id in a list of ids ([role_id IN (?)]; with an empty
    list nothing matches). *)
Definition id_in (ids : list N) (x : N) : bool := existsb (N.eqb x) ids.

(** Deletes.  [migrateTables] (authority.go, lines 525-537) declares
    [role_permissions.role_id] and [user_roles.role_id] as foreign keys to
    [roles.id], and [role_permissions.permission_id] as a foreign key to
    [permissions.id], all [ON DELETE CASCADE]: deleting a role or a permission
    deletes the link rows that reference it. *)
Definition Delete_Role (where_ : Role -> bool) : M (option error) :=
  round_trip (fun e => Some e)
    (fun d =>
       let gone := map Role_ID (filter where_ (roles d)) in
       (None,
        mkDB (filter (fun r => negb (where_ r)) (roles d))
             (permissions d)
             (filter (fun rp => negb (id_in gone (RolePermission_RoleID rp)))
                     (role_permissions d))
             (filter (fun ur => negb (id_in gone (UserRole_RoleID ur)))
                     (user_roles d))
             (roles_id_seq d) (permissions_id_seq d)
             (role_permissions_id_seq d) (user_roles_id_seq d))).

Definition Delete_Permission (where_ : Permission -> bool) : M (option error) :=
  round_trip (fun e => Some e)
    (fun d =>
       let gone := map Permission_ID (filter where_ (permissions d)) in
       (None,
        mkDB (roles d)
             (filter (fun p => negb (where_ p)) (permissions d))
             (filter (fun rp =>
                        negb (id_in gone (RolePermission_PermissionID rp)))
                     (role_permissions d))
             (user_roles d)
             (roles_id_seq d) (permissions_id_seq d)
             (role_permissions_id_seq d) (user_roles_id_seq d))).

Definition Delete_RolePermission (where_ : RolePermission -> bool)
  : M (option error) :=
  round_trip (fun e => Some e)
    (fun d =>
       (None,
        mkDB (roles d) (permissions d)
             (filter (fun rp => negb (where_ rp)) (role_permissions d))
             (user_roles d)
             (roles_id_seq d) (permissions_id_seq d)
             (role_permissions_id_seq d) (user_roles_id_seq d))).

Definition Delete_UserRole (where_ : UserRole -> bool) : M (option error) :=
  round_trip (fun e => Some e)
    (fun d =>
       (None,
        mkDB (roles d) (permissions d) (role_permissions d)
             (filter (fun ur => negb (where_ ur)) (user_roles d))
             (roles_id_seq d) (permissions_id_seq d)
             (role_permissions_id_seq d) (user_roles_id_seq d))).

(** ** Resolution helpers (authority.go, lines 458-510) *)

(** [getRole]: when [Scan] fails with an error other than [sql.ErrNoRows]
    neither branch returns, and control reaches [return &role, nil]. *)
Definition getRole (roleName : string) : M (result Role) :=
  '(role, err) <- Scan_row roles (fun r => Role_Name r =? roleName)%string
                    Role_zero ;;
  match err with
  | Some e =>
      if errors_Is e sql_ErrNoRows then ret (Err ErrRoleNotFound)
      else ret (Ok role)
  | None => ret (Ok role)
  end.

Definition getPermission (permName : string) : M (result Permission) :=
  '(perm, err) <- Scan_row permissions
                    (fun p => Permission_Name p =? permName)%string
                    Permission_zero ;;
  match err with
  | Some e =>
      if errors_Is e sql_ErrNoRows then ret (Err ErrPermissionNotFound)
      else ret (Ok perm)
  | None => ret (Ok perm)
  end.

Definition getRolePermission (roleID permID : N) : M (result RolePermission) :=
  '(rolePerm, err) <- Scan_row role_permissions
                        (fun rp => (RolePermission_RoleID rp =? roleID) &&
                                   (RolePermission_PermissionID rp =? permID))
                        RolePermission_zero ;;
  match err with
  | Some e =>
      if errors_Is e sql_ErrNoRows then ret (Err ErrRolePermissionNotFound)
      else ret (Err e)
  | None => ret (Ok rolePerm)
  end.

Definition getUserRole (userID roleID : N) : M (result UserRole) :=
  '(userRole, err) <- Scan_row user_roles
                        (fun ur => (UserRole_UserID ur =? userID) &&
                                   (UserRole_RoleID ur =? roleID))
                        UserRole_zero ;;
  match err with
  | Some e =>
      if errors_Is e sql_ErrNoRows then ret (Err ErrUserRoleNotFound)
      else ret (Err e)
  | None => ret (Ok userRole)
  end.

(** ** Creation (lines 65-103) *)

Definition CreateRole (roleName : string) : M (option error) :=
  '(exists_, err) <- Exists roles (fun r => Role_Name r =? roleName)%string ;;
  match err with
  | Some e => ret (Some e)
  | None =>
      if negb exists_ then
        err <- Insert_Role roleName ;;
        match err with
        | Some e => ret (Some e)
        | None => ret None
        end
      else ret None
  end.

Definition CreatePermission (permName : string) : M (option error) :=
  '(exists_, err) <- Exists permissions
                       (fun p => Permission_Name p =? permName)%string ;;
  match err with
  | Some e => ret (Some e)
  | None =>
      if negb exists_ then
        err <- Insert_Permission permName ;;
        match err with
        | Some e => ret (Some e)
        | None => ret None
        end
      else ret None
  end.

(** ** Assignment (lines 110-167) *)

(** The first loop of [AssignPermissions]: every name is resolved, in order,
    and the rows found are appended to [perms]; the first error ends it. *)
Fixpoint AssignPermissions_resolve (permNames : list string)
    (perms : list Permission) : M (result (list Permission)) :=
  match permNames with
  | [] => ret (Ok perms)
  | permName :: rest =>
      perm <- getPermission permName ;;
      match perm with
      | Err e => ret (Err e)
      | Ok perm => AssignPermissions_resolve rest (perms ++ [perm])
      end
  end.

(** The second loop: a link is inserted whenever [getRolePermission] returns
    an error, whichever it is. *)
Fixpoint AssignPermissions_insert (roleID : N) (perms : list Permission)
  : M (option error) :=
  match perms with
  | [] => ret None
  | perm :: rest =>
      rp <- getRolePermission roleID (Permission_ID perm) ;;
      match rp with
      | Err _ =>
          err <- Insert_RolePermission roleID (Permission_ID perm) ;;
          match err with
          | Some e => ret (Some e)
          | None => AssignPermissions_insert roleID rest
          end
      | Ok _ => AssignPermissions_insert roleID rest
      end
  end.

Definition AssignPermissions (roleName : string) (permNames : list string)
  : M (option error) :=
  role <- getRole roleName ;;
  match role with
  | Err e => ret (Some e)
  | Ok role =>
      perms <- AssignPermissions_resolve permNames [] ;;
      match perms with
      | Err e => ret (Some e)
      | Ok perms => AssignPermissions_insert (Role_ID role) perms
      end
  end.

Definition AssignRole (userID : N) (roleName : string) : M (option error) :=
  role <- getRole roleName ;;
  match role with
  | Err e => ret (Some e)
  | Ok role =>
      ur <- getUserRole userID (Role_ID role) ;;
      match ur with
      | Ok _ => ret (Some ErrRoleAlreadyAssigned)
      | Err _ => Insert_UserRole userID (Role_ID role)
      end
  end.

(** ** Checks (lines 173-262) *)

Definition CheckRole (userID : N) (roleName : string)
  : M (bool * option error) :=
  role <- getRole roleName ;;
  match role with
  | Err e => ret (false, Some e)
  | Ok role =>
      ur <- getUserRole userID (Role_ID role) ;;
      match ur with
      | Err e =>
          if errors_Is e ErrUserRoleNotFound then ret (false, None)
          else ret (false, Some e)
      | Ok _ => ret (true, None)
      end
  end.

Definition CheckPermission (userID : N) (permName : string)
  : M (bool * option error) :=
  '(userRoles, err) <- Scan_rows user_roles
                         (fun ur => UserRole_UserID ur =? userID) ;;
  match err with
  | Some e =>
      if errors_Is e sql_ErrNoRows then ret (false, None)
      else ret (false, Some e)
  | None =>
      let roleIDs := map UserRole_RoleID userRoles in
      perm <- getPermission permName ;;
      match perm with
      | Err e => ret (false, Some e)
      | Ok perm =>
          '(_, err) <- Scan_row role_permissions
                         (fun rp =>
                            id_in roleIDs (RolePermission_RoleID rp) &&
                            (RolePermission_PermissionID rp =?
                               Permission_ID perm))
                         RolePermission_zero ;;
          match err with
          | Some _ => ret (false, None)
          | None => ret (true, None)
          end
      end
  end.

Definition CheckRolePermission (roleName permName : string)
  : M (bool * option error) :=
  role <- getRole roleName ;;
  match role with
  | Err e => ret (false, Some e)
  | Ok role =>
      perm <- getPermission permName ;;
      match perm with
      | Err e => ret (false, Some e)
      | Ok perm =>
          rp <- getRolePermission (Role_ID role) (Permission_ID perm) ;;
          match rp with
          | Err e =>
              if errors_Is e ErrRolePermissionNotFound then ret (false, None)
              else ret (false, Some e)
          | Ok _ => ret (true, None)
          end
      end
  end.

(** ** Revocation (lines 266-339) *)

Definition RevokeRole (userID : N) (roleName : string) : M (option error) :=
  role <- getRole roleName ;;
  match role with
  | Err e => ret (Some e)
  | Ok role =>
      Delete_UserRole (fun ur => (UserRole_UserID ur =? userID) &&
                                 (UserRole_RoleID ur =? Role_ID role))
  end.

(** The loop of [RevokePermission] over the roles of the user. *)
Fixpoint RevokePermission_loop (userRoles : list UserRole) (permID : N)
  : M (option error) :=
  match userRoles with
  | [] => ret None
  | r :: rest =>
      err <- Delete_RolePermission
               (fun rp => (RolePermission_RoleID rp =? UserRole_RoleID r) &&
                          (RolePermission_PermissionID rp =? permID)) ;;
      match err with
      | Some e => ret (Some e)
      | None => RevokePermission_loop rest permID
      end
  end.

Definition RevokePermission (userID : N) (permName : string)
  : M (option error) :=
  '(userRoles, err) <- Scan_rows user_roles
                         (fun ur => UserRole_UserID ur =? userID) ;;
  match err with
  | Some e =>
      if errors_Is e sql_ErrNoRows then ret None else ret (Some e)
  | None =>
      perm <- getPermission permName ;;
      match perm with
      | Err e => ret (Some e)
      | Ok perm => RevokePermission_loop userRoles (Permission_ID perm)
      end
  end.

(** [RevokeRolePermission]: the error of the delete is assigned to [err] and
    the function ends with [return nil]. *)
Definition RevokeRolePermission (roleName permName : string)
  : M (option error) :=
  role <- getRole roleName ;;
  match role with
  | Err e => ret (Some e)
  | Ok role =>
      perm <- getPermission permName ;;
      match perm with
      | Err e => ret (Some e)
      | Ok perm =>
          _ <- Delete_RolePermission
                 (fun rp =>
                    (RolePermission_RoleID rp =? Role_ID role) &&
                    (RolePermission_PermissionID rp =? Permission_ID perm)) ;;
          ret None
      end
  end.

(** ** Listings (lines 342-392) *)

Definition GetRoles : M (list string * option error) :=
  '(roles_, err) <- Scan_rows roles (fun _ => true) ;;
  match err with
  | Some e => ret ([], Some e)
  | None => ret (map Role_Name roles_, None)
  end.

(** The loop of [GetUserRoles]: a role that cannot be read is skipped. *)
Fixpoint GetUserRoles_loop (userRoles : list UserRole) (result_ : list string)
  : M (list string) :=
  match userRoles with
  | [] => ret result_
  | r :: rest =>
      '(role, err) <- Scan_row roles
                        (fun x => Role_ID x =? UserRole_RoleID r) Role_zero ;;
      match err with
      | None => GetUserRoles_loop rest (result_ ++ [Role_Name role])
      | Some _ => GetUserRoles_loop rest result_
      end
  end.

Definition GetUserRoles (userID : N) : M (list string * option error) :=
  '(userRoles, err) <- Scan_rows user_roles
                         (fun ur => UserRole_UserID ur =? userID) ;;
  match err with
  | Some e => ret ([], Some e)
  | None =>
      result_ <- GetUserRoles_loop userRoles [] ;;
      ret (result_, None)
  end.

Definition GetPermissions : M (list string * option error) :=
  '(perms, err) <- Scan_rows permissions (fun _ => true) ;;
  match err with
  | Some e => ret ([], Some e)
  | None => ret (map Permission_Name perms, None)
  end.

(** ** Deletion (lines 396-456) *)

(** [DeleteRole]: the statement commented as revoking the permissions of the
    role is built with [NewSelect] and run with [Exec]; the links of the role
    go away with the role row, through the foreign key of [role_permissions]. *)
Definition DeleteRole (roleName : string) : M (option error) :=
  role <- getRole roleName ;;
  match role with
  | Err e => ret (Some e)
  | Ok role =>
      '(_, err) <- Scan_row user_roles
                     (fun ur => UserRole_RoleID ur =? Role_ID role)
                     UserRole_zero ;;
      match err with
      | None => ret (Some ErrRoleInUse)
      | Some _ =>
          err <- Select_Exec role_permissions
                   (fun rp => RolePermission_RoleID rp =? Role_ID role) ;;
          match err with
          | Some e => ret (Some e)
          | None =>
              err <- Delete_Role (fun r => Role_Name r =? roleName)%string ;;
              match err with
              | Some e => ret (Some e)
              | None => ret None
              end
          end
      end
  end.

Definition DeletePermission (permName : string) : M (option error) :=
  perm <- getPermission permName ;;
  match perm with
  | Err e => ret (Some e)
  | Ok perm =>
      '(_, err) <- Scan_row role_permissions
                     (fun rp =>
                        RolePermission_PermissionID rp =? Permission_ID perm)
                     RolePermission_zero ;;
      match err with
      | None => ret (Some ErrPermissionInUse)
      | Some _ =>
          err <- Delete_Permission
                   (fun p => Permission_Name p =? permName)%string ;;
          match err with
          | Some e => ret (Some e)
          | None => ret None
          end
      end
  end.

(** ** Running the demo of example/main.go *)

(** The database after the two kinds of creation of the demo ... *)
Definition created_state : DB :=
  Eval vm_compute in
    db (snd ((_ <- CreateRole "role-1" ;;
              _ <- CreatePermission "perm-1" ;;
              CreatePermission "perm-2") (quiet empty_DB))).

(** ... after its [AssignPermissions] ... *)
Definition linked_state : DB :=
  Eval vm_compute in
    db (snd (AssignPermissions "role-1" ["perm-1"; "perm-2"]
               (quiet created_state))).

(** ... and after its [AssignRole]. *)
Definition demo_state : DB :=
  Eval vm_compute in
    db (snd (AssignRole 1 "role-1" (quiet linked_state))).

(** The demo followed by the assignment of the same role to a second
    user. *)
Definition shared_state : DB :=
  Eval vm_compute in
    db (snd (AssignRole 2 "role-1" (quiet demo_state))).

(** ** Vocabulary of the statements *)

(** The row a lookup by name resolves to: the first one in storage order. *)
Definition role_named (d : DB) (roleName : string) : option Role :=
  find (fun r => Role_Name r =? roleName)%string (roles d).

Definition permission_named (d : DB) (permName : string) : option Permission :=
  find (fun p => Permission_Name p =? permName)%string (permissions d).

(** The uniqueness constraint on the [name] columns. *)
Definition unique_names (d : DB) : Prop :=
  NoDup (map Role_Name (roles d)) /\
  NoDup (map Permission_Name (permissions d)).

(** A link row between a role id and a permission id. *)
Definition links (roleID permID : N) (rp : RolePermission) : Prop :=
  RolePermission_RoleID rp = roleID /\ RolePermission_PermissionID rp = permID.

Definition linked_in (rps : list RolePermission) (roleID permID : N) : Prop :=
  exists rp, In rp rps /\ links roleID permID rp.

Definition linked (d : DB) (roleID permID : N) : Prop :=
  linked_in (role_permissions d) roleID permID.

(** The number of [user_roles] rows for a pair (user id, role id). *)
Definition count_user_role (d : DB) (userID roleID : N) : nat :=
  List.length (filter (fun ur => (UserRole_UserID ur =? userID) &&
                                 (UserRole_RoleID ur =? roleID))
                      (user_roles d)).

(** The number of [roles] rows, of [permissions] rows, with a given name. *)
Definition count_role_name (d : DB) (name : string) : nat :=
  count_occ string_dec (map Role_Name (roles d)) name.

Definition count_permission_name (d : DB) (name : string) : nat :=
  count_occ string_dec (map Permission_Name (permissions d)) name.

(** Some role held by the user is linked to the permission. *)
Definition holds_permission (d : DB) (userID permID : N) : Prop :=
  exists ur, In ur (user_roles d) /\ UserRole_UserID ur = userID /\
             linked d (UserRole_RoleID ur) permID.

(** An operation that leaves the database as it found it, whatever the
    driver does. *)
Definition read_only {A : Type} (m : M A) : Prop :=
  forall w, db (snd (m w)) = db w.

(** An operation that keeps an invariant of the database, whatever the
    driver does. *)
Definition preserves (I : DB -> Prop) {A : Type} (m : M A) : Prop :=
  forall w, I (db w) -> I (db (snd (m w))).

(** The rows the second loop of [AssignPermissions] appends to a link table
    [rps] whose sequence is at [seq], when storage does not fail. *)
Fixpoint links_to_add (roleID : N) (rps : list RolePermission) (seq : N)
    (perms : list Permission) : list RolePermission :=
  match perms with
  | [] => []
  | perm :: rest =>
      match find (fun rp => (RolePermission_RoleID rp =? roleID) &&
                            (RolePermission_PermissionID rp =?
                               Permission_ID perm)) rps with
      | Some _ => links_to_add roleID rps seq rest
      | None =>
          let rp := mkRolePermission seq roleID (Permission_ID perm) in
          rp :: links_to_add roleID (rps ++ [rp]) (seq + 1) rest
      end
  end.

(** The database with [added] appended to the link table. *)
Definition with_links (d : DB) (added : list RolePermission) : DB :=
  mkDB (roles d) (permissions d) (role_permissions d ++ added) (user_roles d)
       (roles_id_seq d) (permissions_id_seq d)
       (role_permissions_id_seq d + N.of_nat (List.length added))
       (user_roles_id_seq d).

(** The permissions a list of names resolves to, when every name has a
    row. *)
Fixpoint resolved (d : DB) (permNames : list string)
  : option (list Permission) :=
  match permNames with
  | [] => Some []
  | permName :: rest =>
      match permission_named d permName, resolved d rest with
      | Some perm, Some perms => Some (perm :: perms)
      | _, _ => None
      end
  end.

(** The user has a [user_roles] row for the role id. *)
Definition holds_role (d : DB) (userID roleID : N) : Prop :=
  exists ur, In ur (user_roles d) /\
             UserRole_UserID ur = userID /\ UserRole_RoleID ur = roleID.

(** Referential integrity: every link row names a stored role and a stored
    permission, every assignment row names a stored role. *)
Definition ref_integrity (d : DB) : Prop :=
  (forall rp, In rp (role_permissions d) ->
     In (RolePermission_RoleID rp) (map Role_ID (roles d)) /\
     In (RolePermission_PermissionID rp)
        (map Permission_ID (permissions d))) /\
  (forall ur, In ur (user_roles d) ->
     In (UserRole_RoleID ur) (map Role_ID (roles d))).

(** The primary keys: in each table the ids are distinct and below the next
    value of the sequence. *)
Definition keys_below {R : Type} (key : R -> N) (rows : list R) (seq : N)
  : Prop :=
  NoDup (map key rows) /\ forall r, In r rows -> key r < seq.

Definition primary_keys (d : DB) : Prop :=
  keys_below Role_ID (roles d) (roles_id_seq d) /\
  keys_below Permission_ID (permissions d) (permissions_id_seq d) /\
  keys_below RolePermission_ID (role_permissions d)
             (role_permissions_id_seq d) /\
  keys_below UserRole_ID (user_roles d) (user_roles_id_seq d).

(** An operation that, whatever the driver does, has changed nothing when it
    returns an error. *)
Definition all_or_nothing (m : M (option error)) : Prop :=
  forall w, fst (m w) <> None -> db (snd (m w)) = db w.

(** The role names [GetUserRoles] collects for a list of assignment rows on
    a store that does not fail: the name of the first role with the id of
    the row, nothing when there is none. *)
Definition names_of (d : DB) (userRoles : list UserRole) : list string :=
  flat_map (fun ur =>
              match find (fun r => Role_ID r =? UserRole_RoleID ur) (roles d)
              with
              | Some role => [Role_Name role]
              | None => []
              end) userRoles.

(** A call of one of the fifteen operations of the package, and a client
    that makes a list of calls one after the other, ignoring what they
    return. *)
Inductive call : Type :=
| call_CreateRole (roleName : string)
| call_CreatePermission (permName : string)
| call_AssignPermissions (roleName : string) (permNames : list string)
| call_AssignRole (userID : N) (roleName : string)
| call_CheckRole (userID : N) (roleName : string)
| call_CheckPermission (userID : N) (permName : string)
| call_CheckRolePermission (roleName permName : string)
| call_RevokeRole (userID : N) (roleName : string)
| call_RevokePermission (userID : N) (permName : string)
| call_RevokeRolePermission (roleName permName : string)
| call_GetRoles
| call_GetUserRoles (userID : N)
| call_GetPermissions
| call_DeleteRole (roleName : string)
| call_DeletePermission (permName : string).

Definition perform (c : call) : M unit :=
  match c with
  | call_CreateRole n => _ <- CreateRole n ;; ret tt
  | call_CreatePermission n => _ <- CreatePermission n ;; ret tt
  | call_AssignPermissions r ps => _ <- AssignPermissions r ps ;; ret tt
  | call_AssignRole u r => _ <- AssignRole u r ;; ret tt
  | call_CheckRole u r => _ <- CheckRole u r ;; ret tt
  | call_CheckPermission u p => _ <- CheckPermission u p ;; ret tt
  | call_CheckRolePermission r p => _ <- CheckRolePermission r p ;; ret tt
  | call_RevokeRole u r => _ <- RevokeRole u r ;; ret tt
  | call_RevokePermission u p => _ <- RevokePermission u p ;; ret tt
  | call_RevokeRolePermission r p => _ <- RevokeRolePermission r p ;; ret tt
  | call_GetRoles => _ <- GetRoles ;; ret tt
  | call_GetUserRoles u => _ <- GetUserRoles u ;; ret tt
  | call_GetPermissions => _ <- GetPermissions ;; ret tt
  | call_DeleteRole r => _ <- DeleteRole r ;; ret tt
  | call_DeletePermission p => _ <- DeletePermission p ;; ret tt
  end.

Fixpoint perform_all (cs : list call) : M unit :=
  match cs with
  | [] => ret tt
  | c :: rest => _ <- perform c ;; perform_all rest
  end.

(** * Properties *)

(** ** The monad and the round trips *)

Lemma round_trip_quiet {A : Type} (failed : error -> A) stmt d :
  round_trip failed stmt (quiet d) =
  (fst (stmt d), quiet (snd (stmt d))).
Proof. unfold round_trip, quiet. simpl. now destruct (stmt d). Qed.

Lemma Scan_row_quiet {R : Type} (table : DB -> list R) where_ zero d :
  Scan_row table where_ zero (quiet d) =
  (match find where_ (table d) with
   | Some r => (r, None)
   | None => (zero, Some sql_ErrNoRows)
   end, quiet d).
Proof.
  unfold Scan_row. rewrite round_trip_quiet.
  now destruct (find where_ (table d)).
Qed.

Lemma Scan_rows_quiet {R : Type} (table : DB -> list R) where_ d :
  Scan_rows table where_ (quiet d) = ((filter where_ (table d), None), quiet d).
Proof. unfold Scan_rows. now rewrite round_trip_quiet. Qed.

Lemma Exists_quiet {R : Type} (table : DB -> list R) where_ d :
  Exists table where_ (quiet d) = ((existsb where_ (table d), None), quiet d).
Proof. unfold Exists. now rewrite round_trip_quiet. Qed.

Lemma Select_Exec_quiet {R : Type} (table : DB -> list R) where_ d :
  Select_Exec table where_ (quiet d) = (None, quiet d).
Proof. unfold Select_Exec. now rewrite round_trip_quiet. Qed.

(** A failing round trip: the statement is not run. *)
Lemma round_trip_fault {A : Type} (failed : error -> A) stmt d msg rest :
  round_trip failed stmt (mkWorld d (Some msg :: rest)) =
  (failed (driver_error msg), mkWorld d rest).
Proof. reflexivity. Qed.

(** ** Read-only operations *)

Lemma read_only_ret {A : Type} (a : A) : read_only (ret a).
Proof. now intros w. Qed.

Lemma read_only_bind {A B : Type} (m : M A) (k : A -> M B) :
  read_only m -> (forall a, read_only (k a)) -> read_only (bind m k).
Proof.
  intros Hm Hk w. unfold bind. specialize (Hm w).
  destruct (m w) as [a w']. simpl in Hm. now rewrite Hk.
Qed.

Lemma read_only_round_trip {A : Type} (failed : error -> A) stmt :
  (forall d, snd (stmt d) = d) -> read_only (round_trip failed stmt).
Proof.
  intros H [d fs]. unfold round_trip. simpl.
  destruct fs as [|[msg|] rest]; simpl; trivial;
    specialize (H d); destruct (stmt d); simpl in *; assumption.
Qed.

Lemma read_only_Scan_row {R : Type} (table : DB -> list R) where_ zero :
  read_only (Scan_row table where_ zero).
Proof.
  apply read_only_round_trip. intros d. now destruct (find where_ (table d)).
Qed.

Lemma read_only_Scan_rows {R : Type} (table : DB -> list R) where_ :
  read_only (Scan_rows table where_).
Proof. now apply read_only_round_trip. Qed.

Lemma read_only_Exists {R : Type} (table : DB -> list R) where_ :
  read_only (Exists table where_).
Proof. now apply read_only_round_trip. Qed.

Lemma read_only_Select_Exec {R : Type} (table : DB -> list R) where_ :
  read_only (Select_Exec table where_).
Proof. now apply read_only_round_trip. Qed.

Create HintDb frame.
#[local] Hint Resolve read_only_ret read_only_Scan_row read_only_Scan_rows
  read_only_Exists read_only_Select_Exec : frame.

(** Walks through a composed read: every bind is split, every
    case analysis of the program is followed. *)
Ltac frame :=
  repeat first
    [ apply read_only_ret
    | apply read_only_Scan_row
    | apply read_only_Scan_rows
    | apply read_only_bind; [ | intros ? ]
    | match goal with
      | |- read_only (match ?x with _ => _ end) => destruct x
      | |- read_only (if ?b then _ else _) => destruct b
      end
    | solve [ auto with frame ] ].

Lemma read_only_getRole roleName : read_only (getRole roleName).
Proof. unfold getRole. frame. Qed.

Lemma read_only_getPermission permName : read_only (getPermission permName).
Proof. unfold getPermission. frame. Qed.

Lemma read_only_getRolePermission roleID permID :
  read_only (getRolePermission roleID permID).
Proof. unfold getRolePermission. frame. Qed.

Lemma read_only_getUserRole userID roleID :
  read_only (getUserRole userID roleID).
Proof. unfold getUserRole. frame. Qed.

#[local] Hint Resolve read_only_getRole read_only_getPermission
  read_only_getRolePermission read_only_getUserRole : frame.

Lemma read_only_GetUserRoles_loop userRoles :
  forall result_, read_only (GetUserRoles_loop userRoles result_).
Proof.
  induction userRoles as [|r rest IH]; intros result_; simpl.
  - apply read_only_ret.
  - apply read_only_bind; [ apply read_only_Scan_row | ].
    intros [role [e|]]; apply IH.
Qed.

#[local] Hint Resolve read_only_GetUserRoles_loop : frame.

(** ** Lists *)

Lemma find_absent {A : Type} (f : A -> bool) (l : list A) :
  (forall x, In x l -> f x = false) -> find f l = None.
Proof.
  induction l as [|a l IH]; simpl; intros H; [reflexivity|].
  rewrite (H a) by now left. apply IH. intros x Hx. apply H. now right.
Qed.

Lemma find_filter {A : Type} (f : A -> bool) (l : list A) :
  find f l = hd_error (filter f l).
Proof.
  induction l as [|a l IH]; simpl; [reflexivity|].
  now destruct (f a).
Qed.

Lemma filter_all {A : Type} (l : list A) : filter (fun _ => true) l = l.
Proof. induction l as [|a l IH]; simpl; congruence. Qed.

Lemma id_in_spec (ids : list N) (x : N) : id_in ids x = true <-> In x ids.
Proof.
  unfold id_in. rewrite existsb_exists. split.
  - intros [y [Hy Heq]]. apply N.eqb_eq in Heq. now subst.
  - intros H. exists x. split; [assumption | apply N.eqb_refl].
Qed.

(** ** Resolution helpers on a store that does not fail *)

Lemma getRole_quiet d roleName :
  getRole roleName (quiet d) =
  (match role_named d roleName with
   | Some role => Ok role
   | None => Err ErrRoleNotFound
   end, quiet d).
Proof.
  unfold getRole, bind, role_named. rewrite Scan_row_quiet.
  now destruct (find _ (roles d)).
Qed.

Lemma getPermission_quiet d permName :
  getPermission permName (quiet d) =
  (match permission_named d permName with
   | Some perm => Ok perm
   | None => Err ErrPermissionNotFound
   end, quiet d).
Proof.
  unfold getPermission, bind, permission_named. rewrite Scan_row_quiet.
  now destruct (find _ (permissions d)).
Qed.

Lemma getRolePermission_quiet d roleID permID :
  getRolePermission roleID permID (quiet d) =
  (match find (fun rp => (RolePermission_RoleID rp =? roleID) &&
                         (RolePermission_PermissionID rp =? permID))
               (role_permissions d) with
   | Some rp => Ok rp
   | None => Err ErrRolePermissionNotFound
   end, quiet d).
Proof.
  unfold getRolePermission, bind. rewrite Scan_row_quiet.
  now destruct (find _ (role_permissions d)).
Qed.

Lemma getUserRole_quiet d userID roleID :
  getUserRole userID roleID (quiet d) =
  (match find (fun ur => (UserRole_UserID ur =? userID) &&
                         (UserRole_RoleID ur =? roleID))
               (user_roles d) with
   | Some ur => Ok ur
   | None => Err ErrUserRoleNotFound
   end, quiet d).
Proof.
  unfold getUserRole, bind. rewrite Scan_row_quiet.
  now destruct (find _ (user_roles d)).
Qed.

Lemma role_named_In d roleName role :
  role_named d roleName = Some role ->
  In role (roles d) /\ Role_Name role = roleName.
Proof.
  unfold role_named. intros H. apply find_some in H as [Hin Hn].
  split; [assumption | now apply String.eqb_eq].
Qed.

Lemma permission_named_In d permName perm :
  permission_named d permName = Some perm ->
  In perm (permissions d) /\ Permission_Name perm = permName.
Proof.
  unfold permission_named. intros H. apply find_some in H as [Hin Hn].
  split; [assumption | now apply String.eqb_eq].
Qed.

(** With unique names, the row a name resolves to is the row with that
    name. *)
Lemma NoDup_map_find {A : Type} (key : A -> string) (l : list A) (x : A) :
  NoDup (map key l) -> In x l ->
  find (fun y => key y =? key x)%string l = Some x.
Proof.
  induction l as [|a l IH]; simpl; intros Hnd Hin; [contradiction|].
  inversion Hnd as [|? ? Hni Hnd']; subst.
  destruct Hin as [->|Hin].
  - now rewrite String.eqb_refl.
  - destruct (String.eqb_spec (key a) (key x)) as [Heq|Hne].
    + exfalso. apply Hni. rewrite Heq. now apply in_map.
    + now apply IH.
Qed.

Lemma role_named_unique d role :
  unique_names d -> In role (roles d) ->
  role_named d (Role_Name role) = Some role.
Proof. intros [H _] Hin. now apply NoDup_map_find. Qed.

Lemma permission_named_unique d perm :
  unique_names d -> In perm (permissions d) ->
  permission_named d (Permission_Name perm) = Some perm.
Proof. intros [_ H] Hin. now apply NoDup_map_find. Qed.

(** ** Read operations *)

(** C10.  [CheckRole], [CheckPermission], [CheckRolePermission], [GetRoles],
    [GetUserRoles] and [GetPermissions] leave the database -- the four tables
    and their sequences -- as they found it, for every input, every starting
    state and every behaviour of the driver. *)
Theorem reads_leave_tables_unchanged :
  (forall userID roleName, read_only (CheckRole userID roleName)) /\
  (forall userID permName, read_only (CheckPermission userID permName)) /\
  (forall roleName permName, read_only (CheckRolePermission roleName permName)) /\
  read_only GetRoles /\
  (forall userID, read_only (GetUserRoles userID)) /\
  read_only GetPermissions.
Proof.
  repeat split; intros.
  - unfold CheckRole. frame.
  - unfold CheckPermission. frame.
  - unfold CheckRolePermission. frame.
  - unfold GetRoles. frame.
  - unfold GetUserRoles. frame.
  - unfold GetPermissions. frame.
Qed.

(** ** [CheckRole] *)

(** C8.  On a store that does not fail: [CheckRole] on a name that no role
    row has returns [false] with the error [ErrRoleNotFound]; when the name
    resolves to a role and no [user_roles] row joins the user to it, it
    returns [false] and no error. *)
Theorem CheckRole_unknown_or_unassigned d userID roleName :
  ((forall r, In r (roles d) -> Role_Name r <> roleName) ->
   CheckRole userID roleName (quiet d) =
   ((false, Some ErrRoleNotFound), quiet d)) /\
  (forall role,
     role_named d roleName = Some role ->
     (forall ur, In ur (user_roles d) ->
                 ~ (UserRole_UserID ur = userID /\
                    UserRole_RoleID ur = Role_ID role)) ->
     CheckRole userID roleName (quiet d) = ((false, None), quiet d)).
Proof.
  split.
  - intros Habs. unfold CheckRole, bind. rewrite getRole_quiet.
    unfold role_named. rewrite find_absent; [reflexivity|].
    intros r Hr. apply String.eqb_neq. now apply Habs.
  - intros role Hrole Hnone. unfold CheckRole, bind.
    rewrite getRole_quiet, Hrole, getUserRole_quiet.
    rewrite find_absent; [reflexivity|].
    intros ur Hur. apply andb_false_iff.
    destruct (N.eqb_spec (UserRole_UserID ur) userID) as [Hu|Hu];
      [right | now left].
    apply N.eqb_neq. intros Hr. now apply (Hnone ur Hur).
Qed.

(** ** [DeleteRole] *)

(** C4.  On a store that does not fail, [DeleteRole] on a role that some
    [user_roles] row references returns [ErrRoleInUse] and leaves the
    database unchanged, so the role row is still there.  And whatever the
    driver does, a call that returns [ErrRoleInUse] has changed nothing: the
    error is returned before any delete is sent. *)
Theorem DeleteRole_in_use d roleName role :
  role_named d roleName = Some role ->
  (exists ur, In ur (user_roles d) /\ UserRole_RoleID ur = Role_ID role) ->
  DeleteRole roleName (quiet d) = (Some ErrRoleInUse, quiet d) /\
  In role (roles (db (snd (DeleteRole roleName (quiet d))))) /\
  (forall w, fst (DeleteRole roleName w) = Some ErrRoleInUse ->
             db (snd (DeleteRole roleName w)) = db w).
Proof.
  intros Hrole [ur [Hin Hid]].
  assert (Hrun : DeleteRole roleName (quiet d) = (Some ErrRoleInUse, quiet d)).
  { unfold DeleteRole, bind. rewrite getRole_quiet, Hrole, Scan_row_quiet.
    destruct (find _ (user_roles d)) as [ur'|] eqn:Hfind; [reflexivity|].
    apply find_none with (x := ur) in Hfind; [|assumption].
    rewrite Hid, N.eqb_refl in Hfind. discriminate. }
  split; [exact Hrun|]. split.
  - rewrite Hrun. simpl. now apply role_named_In in Hrole.
  - clear. intros w. unfold DeleteRole, bind.
    pose proof (read_only_getRole roleName w) as Hg.
    destruct (getRole roleName w) as [[role|e] w1]; simpl in Hg.
    + pose proof (read_only_Scan_row user_roles
                    (fun ur => UserRole_RoleID ur =? Role_ID role)
                    UserRole_zero w1) as Hs.
      destruct (Scan_row _ _ _ w1) as [[ur [e|]] w2]; simpl in Hs.
      * pose proof (read_only_Select_Exec role_permissions
                      (fun rp => RolePermission_RoleID rp =? Role_ID role) w2)
          as He.
        destruct (Select_Exec _ _ w2) as [[e'|] w3]; simpl in He.
        -- simpl. intros _. congruence.
        -- destruct w3 as [d3 [|[msg|] fs]]; simpl; intros H; discriminate H.
      * simpl. intros _. congruence.
    + simpl. intros _. exact Hg.
Qed.

(** C1.  On a store that does not fail, [DeleteRole] on a role that no
    [user_roles] row references returns no error; afterwards no
    [role_permissions] row has the id of the role, no [roles] row has its
    name (so the role row is gone), and [GetRoles] does not list the name.
    Permissions, and the roles with another name, are kept. *)
Theorem DeleteRole_unassigned d roleName role :
  role_named d roleName = Some role ->
  (forall ur, In ur (user_roles d) -> UserRole_RoleID ur <> Role_ID role) ->
  exists d',
    DeleteRole roleName (quiet d) = (None, quiet d') /\
    (forall rp, In rp (role_permissions d') ->
                RolePermission_RoleID rp <> Role_ID role) /\
    (forall r, In r (roles d') -> Role_Name r <> roleName) /\
    ~ In role (roles d') /\
    (exists names, GetRoles (quiet d') = ((names, None), quiet d') /\
                   ~ In roleName names) /\
    permissions d' = permissions d /\
    (forall r, In r (roles d) -> Role_Name r <> roleName -> In r (roles d')).
Proof.
  intros Hrole Hfree.
  destruct (role_named_In _ _ Hrole) as [Hin Hname].
  eexists. split.
  { unfold DeleteRole, bind. rewrite getRole_quiet, Hrole, Scan_row_quiet.
    rewrite find_absent.
    2:{ intros ur Hur. apply N.eqb_neq. now apply Hfree. }
    rewrite Select_Exec_quiet. unfold Delete_Role.
    rewrite round_trip_quiet. simpl. reflexivity. }
  simpl.
  assert (Hnames : forall r,
             In r (filter (fun r => negb (Role_Name r =? roleName)%string)
                          (roles d)) -> Role_Name r <> roleName).
  { intros r Hr. apply filter_In in Hr as [_ Hr].
    apply negb_true_iff in Hr. now apply String.eqb_neq. }
  repeat split.
  - intros rp Hrp Heq. apply filter_In in Hrp as [_ Hrp].
    apply negb_true_iff in Hrp.
    assert (Hgone : id_in (map Role_ID
                             (filter (fun r => (Role_Name r =? roleName)%string)
                                     (roles d)))
                          (RolePermission_RoleID rp) = true).
    { apply id_in_spec. rewrite Heq. apply in_map. apply filter_In.
      split; [assumption | now apply String.eqb_eq]. }
    congruence.
  - exact Hnames.
  - intros Hr. now apply (Hnames role Hr).
  - eexists. split.
    + unfold GetRoles, bind. rewrite Scan_rows_quiet. reflexivity.
    + simpl. rewrite filter_all. intros Hn. apply in_map_iff in Hn.
      destruct Hn as [r [Hr1 Hr2]]. now apply (Hnames r Hr2).
  - intros r Hr Hn. apply filter_In. split; [assumption|].
    apply negb_true_iff. now apply String.eqb_neq.
Qed.

(** ** [AssignRole] *)

Lemma count_user_role_find d userID roleID :
  match find (fun ur => (UserRole_UserID ur =? userID) &&
                        (UserRole_RoleID ur =? roleID)) (user_roles d) with
  | Some _ => (0 < count_user_role d userID roleID)%nat
  | None => count_user_role d userID roleID = 0%nat
  end.
Proof.
  unfold count_user_role. rewrite find_filter.
  destruct (filter _ (user_roles d)); simpl; [reflexivity | lia].
Qed.

(** C3.  On a store that does not fail, for a name that resolves to a role:
    when a [user_roles] row for (user id, role id) exists, [AssignRole]
    returns [ErrRoleAlreadyAssigned] and leaves the database unchanged, so
    the number of rows for the pair is what it was; when there is none,
    [AssignRole] returns no error and appends one row for the pair, the
    number of rows for the pair becomes 1, and assigning again is refused
    with the number still 1. *)
Theorem AssignRole_once d userID roleName role :
  role_named d roleName = Some role ->
  ((0 < count_user_role d userID (Role_ID role))%nat ->
   AssignRole userID roleName (quiet d) =
   (Some ErrRoleAlreadyAssigned, quiet d)) /\
  (count_user_role d userID (Role_ID role) = 0%nat ->
   exists d',
     AssignRole userID roleName (quiet d) = (None, quiet d') /\
     user_roles d' =
       (user_roles d ++
          [mkUserRole (user_roles_id_seq d) userID (Role_ID role)])%list /\
     count_user_role d' userID (Role_ID role) = 1%nat /\
     roles d' = roles d /\ permissions d' = permissions d /\
     role_permissions d' = role_permissions d /\
     AssignRole userID roleName (quiet d') =
     (Some ErrRoleAlreadyAssigned, quiet d')).
Proof.
  intros Hrole.
  assert (Hdup : forall d0, role_named d0 roleName = Some role ->
             (0 < count_user_role d0 userID (Role_ID role))%nat ->
             AssignRole userID roleName (quiet d0) =
             (Some ErrRoleAlreadyAssigned, quiet d0)).
  { intros d0 Hr Hc. unfold AssignRole, bind.
    rewrite getRole_quiet, Hr, getUserRole_quiet.
    pose proof (count_user_role_find d0 userID (Role_ID role)) as Hf.
    destruct (find _ (user_roles d0)); [reflexivity | lia]. }
  split; [now apply Hdup|].
  intros Hzero. eexists. split.
  { unfold AssignRole, bind. rewrite getRole_quiet, Hrole, getUserRole_quiet.
    pose proof (count_user_role_find d userID (Role_ID role)) as Hf.
    destruct (find _ (user_roles d)); [lia|].
    unfold Insert_UserRole. rewrite round_trip_quiet. simpl. reflexivity. }
  simpl.
  assert (Hone : count_user_role
                   (mkDB (roles d) (permissions d) (role_permissions d)
                      (user_roles d ++
                         [mkUserRole (user_roles_id_seq d) userID (Role_ID role)])
                      (roles_id_seq d) (permissions_id_seq d)
                      (role_permissions_id_seq d) (user_roles_id_seq d + 1))
                   userID (Role_ID role) = 1%nat).
  { unfold count_user_role in *. simpl. rewrite filter_app, length_app, Hzero.
    simpl. now rewrite !N.eqb_refl. }
  repeat split; try assumption.
  apply Hdup; [exact Hrole | lia].
Qed.

(** ** [CreateRole] and [CreatePermission] *)

Lemma existsb_name {A : Type} (key : A -> string) (l : list A) (name : string) :
  existsb (fun x => key x =? name)%string l = true <-> In name (map key l).
Proof.
  rewrite existsb_exists, in_map_iff.
  split; intros [x [H1 H2]]; exists x.
  - split; [now apply String.eqb_eq | assumption].
  - split; [assumption | now apply String.eqb_eq].
Qed.

Lemma names_snoc (l : list string) (name : string) :
  NoDup l -> ~ In name l ->
  NoDup (l ++ [name]) /\ count_occ string_dec (l ++ [name]) name = 1%nat.
Proof.
  intros Hnd Hni. split.
  - induction l as [|a l IH]; simpl.
    + constructor; [now intros [] | constructor].
    + inversion Hnd as [|? ? Ha Hl]; subst. constructor.
      * rewrite in_app_iff. intros [H|[H|[]]]; [contradiction|].
        apply Hni. now left.
      * apply IH; [assumption|]. intros H. apply Hni. now right.
  - rewrite count_occ_app. simpl.
    destruct (string_dec name name) as [_|Hne]; [|contradiction].
    apply (count_occ_not_In string_dec) in Hni. lia.
Qed.

Lemma names_present (l : list string) (name : string) :
  NoDup l -> In name l -> count_occ string_dec l name = 1%nat.
Proof. intros Hnd Hin. now apply (proj1 (NoDup_count_occ' string_dec l)). Qed.

Lemma CreateRole_quiet d name :
  CreateRole name (quiet d) =
  (None,
   quiet (if existsb (fun r => Role_Name r =? name)%string (roles d) then d
          else mkDB (roles d ++ [mkRole (roles_id_seq d) name ""])
                    (permissions d) (role_permissions d) (user_roles d)
                    (roles_id_seq d + 1) (permissions_id_seq d)
                    (role_permissions_id_seq d) (user_roles_id_seq d))).
Proof.
  unfold CreateRole, bind. rewrite Exists_quiet.
  destruct (existsb _ (roles d)) eqn:Hex; simpl; [reflexivity|].
  unfold Insert_Role. rewrite round_trip_quiet, Hex. reflexivity.
Qed.

Lemma CreatePermission_quiet d name :
  CreatePermission name (quiet d) =
  (None,
   quiet (if existsb (fun p => Permission_Name p =? name)%string (permissions d)
          then d
          else mkDB (roles d)
                    (permissions d ++
                       [mkPermission (permissions_id_seq d) name ""])
                    (role_permissions d) (user_roles d)
                    (roles_id_seq d) (permissions_id_seq d + 1)
                    (role_permissions_id_seq d) (user_roles_id_seq d))).
Proof.
  unfold CreatePermission, bind. rewrite Exists_quiet.
  destruct (existsb _ (permissions d)) eqn:Hex; simpl; [reflexivity|].
  unfold Insert_Permission. rewrite round_trip_quiet, Hex. reflexivity.
Qed.

(** C9.  On a store that does not fail and whose names are unique (the
    constraint of the [name] columns), [CreateRole] called twice in a row
    returns no error either time, the second call leaves the database exactly
    as the first one left it, and exactly one role row has the name
    afterwards; names are still unique.  The same holds of
    [CreatePermission]. *)
Theorem Create_twice d name :
  unique_names d ->
  (exists d1,
     CreateRole name (quiet d) = (None, quiet d1) /\
     CreateRole name (quiet d1) = (None, quiet d1) /\
     count_role_name d1 name = 1%nat /\ unique_names d1) /\
  (exists d1,
     CreatePermission name (quiet d) = (None, quiet d1) /\
     CreatePermission name (quiet d1) = (None, quiet d1) /\
     count_permission_name d1 name = 1%nat /\ unique_names d1).
Proof.
  intros [Hr Hp]. split.
  - eexists. split; [apply CreateRole_quiet|].
    rewrite CreateRole_quiet.
    destruct (existsb _ (roles d)) eqn:Hex.
    + rewrite Hex. repeat split; try assumption.
      apply names_present; [assumption | now apply existsb_name].
    + assert (Hni : ~ In name (map Role_Name (roles d))).
      { intros H. apply existsb_name in H. congruence. }
      destruct (names_snoc name Hr Hni) as [Hnd Hc].
      unfold count_role_name, unique_names. simpl.
      rewrite existsb_app, map_app. simpl.
      rewrite String.eqb_refl, orb_true_r.
      repeat split; assumption.
  - eexists. split; [apply CreatePermission_quiet|].
    rewrite CreatePermission_quiet.
    destruct (existsb _ (permissions d)) eqn:Hex.
    + rewrite Hex. repeat split; try assumption.
      apply names_present; [assumption | now apply existsb_name].
    + assert (Hni : ~ In name (map Permission_Name (permissions d))).
      { intros H. apply existsb_name in H. congruence. }
      destruct (names_snoc name Hp Hni) as [Hnd Hc].
      unfold count_permission_name, unique_names. simpl.
      rewrite existsb_app, map_app. simpl.
      rewrite String.eqb_refl, orb_true_r.
      repeat split; assumption.
Qed.

(** ** [CheckPermission] *)

(** The select of [CheckPermission] over the link table finds a row exactly
    when some role of the user is linked to the permission. *)
Lemma held_link_found d userID permID :
  find (fun rp =>
          id_in (map UserRole_RoleID
                   (filter (fun ur => UserRole_UserID ur =? userID)
                           (user_roles d)))
                (RolePermission_RoleID rp) &&
          (RolePermission_PermissionID rp =? permID))
       (role_permissions d) <> None <->
  holds_permission d userID permID.
Proof.
  split.
  - destruct (find _ (role_permissions d)) as [rp|] eqn:Hf; [|congruence].
    intros _. apply find_some in Hf as [Hin Hp].
    apply andb_true_iff in Hp as [Hr Hp].
    apply id_in_spec, in_map_iff in Hr as [ur [Hur1 Hur2]].
    apply filter_In in Hur2 as [Hur2 Hu].
    exists ur. split; [assumption|]. split; [now apply N.eqb_eq|].
    exists rp. split; [assumption|]. split; [now symmetry | now apply N.eqb_eq].
  - intros [ur [Hur [Hu [rp [Hrp [Hl1 Hl2]]]]]] Hf.
    apply find_none with (x := rp) in Hf; [|assumption].
    apply andb_false_iff in Hf as [Hf|Hf].
    + assert (Ht : id_in (map UserRole_RoleID
                            (filter (fun ur => UserRole_UserID ur =? userID)
                                    (user_roles d)))
                         (RolePermission_RoleID rp) = true).
      { apply id_in_spec. rewrite Hl1. apply in_map. apply filter_In.
        split; [assumption | now apply N.eqb_eq]. }
      congruence.
    + apply N.eqb_neq in Hf. contradiction.
Qed.

Lemma CheckPermission_quiet d userID permName perm :
  permission_named d permName = Some perm ->
  exists b,
    CheckPermission userID permName (quiet d) = ((b, None), quiet d) /\
    (b = true <-> holds_permission d userID (Permission_ID perm)).
Proof.
  intros Hperm. unfold CheckPermission, bind.
  rewrite Scan_rows_quiet. simpl.
  rewrite getPermission_quiet, Hperm, Scan_row_quiet.
  pose proof (held_link_found d userID (Permission_ID perm)) as Hheld.
  destruct (find _ (role_permissions d)) as [rp|].
  - exists true. split; [reflexivity|]. split; [intros _|reflexivity].
    apply Hheld. discriminate.
  - exists false. split; [reflexivity|]. split; [discriminate|].
    intros H. apply Hheld in H. congruence.
Qed.

Lemma RevokeRolePermission_quiet d roleName permName role perm :
  role_named d roleName = Some role ->
  permission_named d permName = Some perm ->
  RevokeRolePermission roleName permName (quiet d) =
  (None,
   quiet (mkDB (roles d) (permissions d)
            (filter (fun rp =>
                       negb ((RolePermission_RoleID rp =? Role_ID role) &&
                             (RolePermission_PermissionID rp =?
                                Permission_ID perm)))
                    (role_permissions d))
            (user_roles d)
            (roles_id_seq d) (permissions_id_seq d)
            (role_permissions_id_seq d) (user_roles_id_seq d))).
Proof.
  intros Hrole Hperm. unfold RevokeRolePermission, bind.
  rewrite getRole_quiet, Hrole, getPermission_quiet, Hperm.
  unfold Delete_RolePermission. rewrite round_trip_quiet. reflexivity.
Qed.

(** C5.  On a store that does not fail, for a name that resolves to a
    permission: [CheckPermission] returns no error, and returns [true]
    exactly when some [user_roles] row of the user names a role that a
    [role_permissions] row links to the permission.  In particular, when the
    only role of the user linked to the permission is the one [roleName]
    resolves to, [CheckPermission] returns [false] after
    [RevokeRolePermission roleName permName]. *)
Theorem CheckPermission_held d userID permName perm :
  permission_named d permName = Some perm ->
  (exists b,
     CheckPermission userID permName (quiet d) = ((b, None), quiet d) /\
     (b = true <-> holds_permission d userID (Permission_ID perm))) /\
  (forall roleName role,
     role_named d roleName = Some role ->
     (forall ur, In ur (user_roles d) -> UserRole_UserID ur = userID ->
                 linked d (UserRole_RoleID ur) (Permission_ID perm) ->
                 UserRole_RoleID ur = Role_ID role) ->
     exists d',
       RevokeRolePermission roleName permName (quiet d) = (None, quiet d') /\
       CheckPermission userID permName (quiet d') = ((false, None), quiet d')).
Proof.
  intros Hperm. split; [now apply CheckPermission_quiet|].
  intros roleName role Hrole Honly.
  eexists. split; [eapply RevokeRolePermission_quiet; eassumption|].
  match goal with |- CheckPermission _ _ (quiet ?d1) = _ => set (d' := d1) end.
  assert (Hperm' : permission_named d' permName = Some perm) by exact Hperm.
  destruct (@CheckPermission_quiet d' userID permName perm Hperm')
    as [b [Hrun Hb]].
  rewrite Hrun. destruct b; [|reflexivity]. exfalso.
  destruct (proj1 Hb eq_refl) as [ur [Hur [Hu [rp [Hrp [Hl1 Hl2]]]]]].
  simpl in Hur, Hrp. apply filter_In in Hrp as [Hrp Hkeep].
  assert (Hid : UserRole_RoleID ur = Role_ID role).
  { apply Honly; [assumption .. |]. exists rp. now repeat split. }
  rewrite Hl1, Hl2, Hid, !N.eqb_refl in Hkeep. discriminate.
Qed.

(** ** [AssignPermissions] *)

Lemma resolve_all d permNames :
  forall perms acc,
    Forall2 (fun n p => permission_named d n = Some p) permNames perms ->
    AssignPermissions_resolve permNames acc (quiet d) =
    (Ok (acc ++ perms)%list, quiet d).
Proof.
  induction permNames as [|n rest IH]; intros perms acc Hall;
    inversion Hall as [|? p ? perms' Hn Hrest]; subst; simpl.
  - now rewrite app_nil_r.
  - unfold bind. rewrite getPermission_quiet, Hn.
    rewrite (IH perms' (acc ++ [p])%list Hrest).
    now rewrite <- app_assoc.
Qed.

Lemma resolve_missing d permNames :
  forall acc,
    (exists n, In n permNames /\ permission_named d n = None) ->
    AssignPermissions_resolve permNames acc (quiet d) =
    (Err ErrPermissionNotFound, quiet d).
Proof.
  induction permNames as [|n rest IH]; intros acc [m [Hin Hm]];
    [contradiction|].
  simpl. unfold bind. rewrite getPermission_quiet.
  destruct (permission_named d n) as [p|] eqn:Hn; [|reflexivity].
  apply IH. exists m. split; [|assumption].
  destruct Hin as [->|Hin]; [congruence | assumption].
Qed.

Lemma with_links_nil d : with_links d [] = d.
Proof.
  destruct d. unfold with_links. simpl.
  now rewrite app_nil_r, N.add_0_r.
Qed.

Lemma with_links_cons d rp added :
  with_links
    (mkDB (roles d) (permissions d) (role_permissions d ++ [rp])
          (user_roles d) (roles_id_seq d) (permissions_id_seq d)
          (role_permissions_id_seq d + 1) (user_roles_id_seq d))
    added =
  with_links d (rp :: added).
Proof.
  unfold with_links. simpl. rewrite <- app_assoc. simpl.
  f_equal. lia.
Qed.

Lemma insert_all roleID perms :
  forall d,
    AssignPermissions_insert roleID perms (quiet d) =
    (None,
     quiet (with_links d
              (links_to_add roleID (role_permissions d)
                 (role_permissions_id_seq d) perms))).
Proof.
  induction perms as [|perm rest IH]; intros d; simpl.
  - now rewrite with_links_nil.
  - unfold bind. rewrite getRolePermission_quiet.
    destruct (find _ (role_permissions d)) as [rp|]; [apply IH|].
    unfold Insert_RolePermission. rewrite round_trip_quiet. simpl.
    rewrite IH. simpl. now rewrite with_links_cons.
Qed.

Lemma linked_in_find rps roleID permID :
  find (fun rp => (RolePermission_RoleID rp =? roleID) &&
                  (RolePermission_PermissionID rp =? permID)) rps <> None <->
  linked_in rps roleID permID.
Proof.
  split.
  - destruct (find _ rps) as [rp|] eqn:Hf; [|congruence].
    intros _. apply find_some in Hf as [Hin Hp].
    apply andb_true_iff in Hp as [H1 H2].
    exists rp. split; [assumption|]. split; now apply N.eqb_eq.
  - intros [rp [Hin [H1 H2]]] Hf.
    apply find_none with (x := rp) in Hf; [|assumption].
    rewrite H1, H2, !N.eqb_refl in Hf. discriminate.
Qed.

Lemma linked_in_app rps rps' roleID permID :
  linked_in rps roleID permID -> linked_in (rps ++ rps') roleID permID.
Proof.
  intros [rp [Hin Hl]]. exists rp. split; [|assumption].
  apply in_or_app. now left.
Qed.

(** Every appended row links the role to one of the permissions, and the
    pair was not linked before. *)
Lemma links_to_add_new roleID perms :
  forall rps seq rp,
    In rp (links_to_add roleID rps seq perms) ->
    RolePermission_RoleID rp = roleID /\
    (exists p, In p perms /\
               RolePermission_PermissionID rp = Permission_ID p) /\
    ~ linked_in rps roleID (RolePermission_PermissionID rp).
Proof.
  induction perms as [|perm rest IH]; intros rps seq rp; simpl;
    [contradiction|].
  pose proof (linked_in_find rps roleID (Permission_ID perm)) as Hfind.
  destruct (find _ rps) as [rp0|].
  - intros Hin. destruct (IH _ _ _ Hin) as [H1 [[p [Hp1 Hp2]] H3]].
    split; [assumption|]. split; [|assumption].
    exists p. split; [now right | assumption].
  - intros [<-|Hin]; simpl.
    + split; [reflexivity|]. split.
      * exists perm. split; [now left | reflexivity].
      * intros H. apply Hfind in H. congruence.
    + destruct (IH _ _ _ Hin) as [H1 [[p [Hp1 Hp2]] H3]].
      split; [assumption|]. split.
      * exists p. split; [now right | assumption].
      * intros H. apply H3. now apply linked_in_app.
Qed.

(** No pair is appended twice. *)
Lemma links_to_add_NoDup roleID perms :
  forall rps seq,
    NoDup (map RolePermission_PermissionID
             (links_to_add roleID rps seq perms)).
Proof.
  induction perms as [|perm rest IH]; intros rps seq; simpl;
    [constructor|].
  destruct (find _ rps) as [rp0|]; [apply IH|].
  simpl. constructor; [|apply IH].
  intros Hin. apply in_map_iff in Hin as [rp [Hid Hin]].
  apply links_to_add_new in Hin as [_ [_ Hnew]]. apply Hnew.
  exists (mkRolePermission seq roleID (Permission_ID perm)).
  split; [apply in_or_app; right; now left|].
  split; [reflexivity | now symmetry].
Qed.

(** Afterwards every permission of the list is linked to the role. *)
Lemma links_to_add_all roleID perms :
  forall rps seq p,
    In p perms ->
    linked_in (rps ++ links_to_add roleID rps seq perms)
              roleID (Permission_ID p).
Proof.
  induction perms as [|perm rest IH]; intros rps seq p; simpl;
    [contradiction|].
  pose proof (linked_in_find rps roleID (Permission_ID perm)) as Hfind.
  destruct (find _ rps) as [rp0|].
  - intros [->|Hin]; [|now apply IH].
    apply linked_in_app. apply Hfind. discriminate.
  - intros [->|Hin].
    + exists (mkRolePermission seq roleID (Permission_ID p)).
      split; [apply in_or_app; right; now left | now split].
    + specialize (IH (rps ++ [mkRolePermission seq roleID (Permission_ID perm)])%list
                     (seq + 1) p Hin).
      now rewrite <- app_assoc in IH.
Qed.

(** C6.  On a store that does not fail, for a name that resolves to a role:
    if one of the permission names has no row, [AssignPermissions] returns
    [ErrPermissionNotFound] and leaves the database unchanged; if every name
    resolves, it returns no error, the other three tables are unchanged and
    the link table is the former one followed by the added rows, where every
    added row links the role to one of the named permissions that was not
    linked to it, no pair is added twice, and every named permission is
    linked to the role afterwards. *)
Theorem AssignPermissions_all_or_nothing d roleName permNames role :
  role_named d roleName = Some role ->
  ((exists n, In n permNames /\
              forall p, In p (permissions d) -> Permission_Name p <> n) ->
   AssignPermissions roleName permNames (quiet d) =
   (Some ErrPermissionNotFound, quiet d)) /\
  (forall perms,
     Forall2 (fun n p => permission_named d n = Some p) permNames perms ->
     exists added,
       AssignPermissions roleName permNames (quiet d) =
       (None, quiet (with_links d added)) /\
       (forall rp, In rp added ->
          RolePermission_RoleID rp = Role_ID role /\
          (exists p, In p perms /\
                     RolePermission_PermissionID rp = Permission_ID p) /\
          ~ linked d (Role_ID role) (RolePermission_PermissionID rp)) /\
       NoDup (map RolePermission_PermissionID added) /\
       (forall p, In p perms ->
          linked (with_links d added) (Role_ID role) (Permission_ID p))).
Proof.
  intros Hrole. split.
  - intros [n [Hin Habs]]. unfold AssignPermissions, bind.
    rewrite getRole_quiet, Hrole, resolve_missing; [reflexivity|].
    exists n. split; [assumption|]. apply find_absent.
    intros p Hp. apply String.eqb_neq. now apply Habs.
  - intros perms Hall.
    exists (links_to_add (Role_ID role) (role_permissions d)
              (role_permissions_id_seq d) perms).
    split; [|split; [|split]].
    + unfold AssignPermissions, bind.
      rewrite getRole_quiet, Hrole.
      rewrite (@resolve_all d permNames perms [] Hall). simpl.
      apply insert_all.
    + intros rp Hin. now apply links_to_add_new in Hin.
    + apply links_to_add_NoDup.
    + intros p Hp. unfold linked. simpl. now apply links_to_add_all.
Qed.

(** ** Storage failures *)

(** [getRolePermission] and [getUserRole] hand a failure of the driver to
    the caller as it is. *)
Lemma getRolePermission_failure roleID permID d msg rest :
  getRolePermission roleID permID (mkWorld d (Some msg :: rest)) =
  (Err (driver_error msg), mkWorld d rest).
Proof. reflexivity. Qed.

Lemma getUserRole_failure userID roleID d msg rest :
  getUserRole userID roleID (mkWorld d (Some msg :: rest)) =
  (Err (driver_error msg), mkWorld d rest).
Proof. reflexivity. Qed.

(** [getRole] and [getPermission] do not: the caller gets the zero value of
    the struct and no error. *)
Lemma getRole_failure roleName d msg rest :
  getRole roleName (mkWorld d (Some msg :: rest)) =
  (Ok Role_zero, mkWorld d rest).
Proof. reflexivity. Qed.

Lemma getPermission_failure permName d msg rest :
  getPermission permName (mkWorld d (Some msg :: rest)) =
  (Ok Permission_zero, mkWorld d rest).
Proof. reflexivity. Qed.

(** When the lookup reports no row, each of the four helpers returns the
    not-found error of its entity. *)
Lemma helpers_not_found d :
  (forall roleName, role_named d roleName = None ->
     getRole roleName (quiet d) = (Err ErrRoleNotFound, quiet d)) /\
  (forall permName, permission_named d permName = None ->
     getPermission permName (quiet d) = (Err ErrPermissionNotFound, quiet d)) /\
  (forall roleID permID, ~ linked d roleID permID ->
     getRolePermission roleID permID (quiet d) =
     (Err ErrRolePermissionNotFound, quiet d)) /\
  (forall userID roleID, count_user_role d userID roleID = 0%nat ->
     getUserRole userID roleID (quiet d) = (Err ErrUserRoleNotFound, quiet d)).
Proof.
  repeat split.
  - intros roleName H. now rewrite getRole_quiet, H.
  - intros permName H. now rewrite getPermission_quiet, H.
  - intros roleID permID H. rewrite getRolePermission_quiet.
    pose proof (linked_in_find (role_permissions d) roleID permID) as Hf.
    destruct (find _ (role_permissions d)); [|reflexivity].
    exfalso. apply H, Hf. discriminate.
  - intros userID roleID H. rewrite getUserRole_quiet.
    pose proof (count_user_role_find d userID roleID) as Hf.
    destruct (find _ (user_roles d)); [lia | reflexivity].
Qed.

(** C2.  The driver fails the lookup with an error that is not
    [sql.ErrNoRows] (here: the connection is reset): [getRole] and
    [getPermission] return the zero-value entity and no error, where
    [getRolePermission] and [getUserRole] return the error of the driver. *)
Theorem getRole_getPermission_storage_failure :
  getRole "role-1" (mkWorld demo_state [Some "connection reset"]) =
  (Ok Role_zero, quiet demo_state) /\
  getPermission "perm-1" (mkWorld demo_state [Some "connection reset"]) =
  (Ok Permission_zero, quiet demo_state) /\
  getRolePermission 1 1 (mkWorld demo_state [Some "connection reset"]) =
  (Err (driver_error "connection reset"), quiet demo_state) /\
  getUserRole 1 1 (mkWorld demo_state [Some "connection reset"]) =
  (Err (driver_error "connection reset"), quiet demo_state).
Proof. repeat split. Qed.

(** The delete of [RevokeRolePermission] fails: the caller gets no error. *)
Lemma RevokeRolePermission_failure d roleName permName msg rest :
  RevokeRolePermission roleName permName
    (mkWorld d (None :: None :: Some msg :: rest)) =
  (match role_named d roleName, permission_named d permName with
   | None, _ => Some ErrRoleNotFound
   | Some _, None => Some ErrPermissionNotFound
   | Some _, Some _ => None
   end,
   match role_named d roleName, permission_named d permName with
   | None, _ => mkWorld d (None :: Some msg :: rest)
   | Some _, None => mkWorld d (Some msg :: rest)
   | Some _, Some _ => mkWorld d rest
   end).
Proof.
  unfold RevokeRolePermission, getRole, getPermission, bind, Scan_row,
    round_trip, role_named, permission_named. simpl.
  destruct (find _ (roles d)); simpl; [|reflexivity].
  destruct (find _ (permissions d)); reflexivity.
Qed.

(** [RevokeRole], next to it, returns the error of its delete. *)
Lemma RevokeRole_failure d userID roleName role msg rest :
  role_named d roleName = Some role ->
  RevokeRole userID roleName (mkWorld d (None :: Some msg :: rest)) =
  (Some (driver_error msg), mkWorld d rest).
Proof.
  intros H. unfold RevokeRole, getRole, bind, Scan_row, round_trip. simpl.
  unfold role_named in H. now rewrite H.
Qed.

(** C7.  Role "role-1" and permission "perm-1" exist and are linked; the two
    lookups go through and the driver fails the delete (the connection is
    reset): [RevokeRolePermission] returns no error, and the link is still
    stored. *)
Theorem RevokeRolePermission_delete_failure :
  RevokeRolePermission "role-1" "perm-1"
    (mkWorld demo_state [None; None; Some "connection reset"]) =
  (None, quiet demo_state) /\
  linked demo_state 1 1.
Proof.
  split; [reflexivity|].
  exists (mkRolePermission 1 1 1). split; [now left | now split].
Qed.

(** ** Unique names are an invariant *)

Section Invariant.

Variable I : DB -> Prop.

Lemma preserves_ret {A : Type} (a : A) : preserves I (ret a).
Proof. now intros w. Qed.

Lemma preserves_bind {A B : Type} (m : M A) (k : A -> M B) :
  preserves I m -> (forall a, preserves I (k a)) -> preserves I (bind m k).
Proof.
  intros Hm Hk w Hw. unfold bind. specialize (Hm w Hw).
  destruct (m w) as [a w']. simpl in Hm. now apply Hk.
Qed.

Lemma preserves_read_only {A : Type} (m : M A) :
  read_only m -> preserves I m.
Proof. intros H w Hw. now rewrite H. Qed.

Lemma preserves_round_trip {A : Type} (failed : error -> A) stmt :
  (forall d, I d -> I (snd (stmt d))) ->
  preserves I (round_trip failed stmt).
Proof.
  intros H [d fs] Hd. unfold round_trip. simpl in *.
  destruct fs as [|[msg|] rest]; simpl; trivial;
    specialize (H d Hd); destruct (stmt d); simpl in *; assumption.
Qed.

End Invariant.

Lemma NoDup_map_filter {A : Type} (key : A -> string) (f : A -> bool) l :
  NoDup (map key l) -> NoDup (map key (filter f l)).
Proof.
  induction l as [|a l IH]; simpl; intros H; [constructor|].
  inversion H as [|? ? Hni Hnd]; subst.
  destruct (f a); simpl; [|now apply IH].
  constructor; [|now apply IH].
  intros Hin. apply Hni. apply in_map_iff in Hin as [x [Hx Hin]].
  apply filter_In in Hin as [Hin _]. rewrite <- Hx. now apply in_map.
Qed.

Lemma unique_names_empty : unique_names empty_DB.
Proof. split; constructor. Qed.

Lemma unique_names_Insert_Role name :
  preserves unique_names (Insert_Role name).
Proof.
  apply preserves_round_trip. intros d [Hr Hp].
  destruct (existsb _ (roles d)) eqn:Hex; simpl; [now split|].
  split; [|assumption]. simpl. rewrite map_app. simpl.
  apply names_snoc; [assumption|].
  intros H. apply existsb_name in H. congruence.
Qed.

Lemma unique_names_Insert_Permission name :
  preserves unique_names (Insert_Permission name).
Proof.
  apply preserves_round_trip. intros d [Hr Hp].
  destruct (existsb _ (permissions d)) eqn:Hex; simpl; [now split|].
  split; [assumption|]. simpl. rewrite map_app. simpl.
  apply names_snoc; [assumption|].
  intros H. apply existsb_name in H. congruence.
Qed.

Lemma unique_names_Insert_RolePermission roleID permID :
  preserves unique_names (Insert_RolePermission roleID permID).
Proof. apply preserves_round_trip. now intros d H. Qed.

Lemma unique_names_Insert_UserRole userID roleID :
  preserves unique_names (Insert_UserRole userID roleID).
Proof. apply preserves_round_trip. now intros d H. Qed.

Lemma unique_names_Delete_Role where_ :
  preserves unique_names (Delete_Role where_).
Proof.
  apply preserves_round_trip. intros d [Hr Hp].
  split; simpl; [now apply NoDup_map_filter | assumption].
Qed.

Lemma unique_names_Delete_Permission where_ :
  preserves unique_names (Delete_Permission where_).
Proof.
  apply preserves_round_trip. intros d [Hr Hp].
  split; simpl; [assumption | now apply NoDup_map_filter].
Qed.

Lemma unique_names_Delete_RolePermission where_ :
  preserves unique_names (Delete_RolePermission where_).
Proof. apply preserves_round_trip. now intros d H. Qed.

Lemma unique_names_Delete_UserRole where_ :
  preserves unique_names (Delete_UserRole where_).
Proof. apply preserves_round_trip. now intros d H. Qed.

Create HintDb inv.
#[local] Hint Resolve unique_names_Insert_Role unique_names_Insert_Permission
  unique_names_Insert_RolePermission unique_names_Insert_UserRole
  unique_names_Delete_Role unique_names_Delete_Permission
  unique_names_Delete_RolePermission unique_names_Delete_UserRole : inv.

(** Follows the program text: binds are split, case analyses are followed,
    reads are discharged by the frame lemmas and writes by the lemmas on the
    statements. *)
Ltac keeps :=
  repeat first
    [ apply preserves_ret
    | solve [ apply preserves_read_only; auto with frame ]
    | solve [ auto with inv ]
    | apply preserves_bind; [ | intros ? ]
    | match goal with
      | |- preserves _ (match ?x with _ => _ end) => destruct x
      | |- preserves _ (if ?b then _ else _) => destruct b
      end ].

Lemma unique_names_insert_loop roleID perms :
  preserves unique_names (AssignPermissions_insert roleID perms).
Proof.
  induction perms as [|perm rest IH]; simpl; keeps; exact IH.
Qed.

Lemma read_only_resolve_loop permNames :
  forall perms, read_only (AssignPermissions_resolve permNames perms).
Proof.
  induction permNames as [|n rest IH]; intros perms; simpl.
  - apply read_only_ret.
  - apply read_only_bind; [apply read_only_getPermission|].
    intros [p|e]; [apply IH | apply read_only_ret].
Qed.

Lemma unique_names_revoke_loop userRoles permID :
  preserves unique_names (RevokePermission_loop userRoles permID).
Proof.
  induction userRoles as [|r rest IH]; simpl; keeps; exact IH.
Qed.

#[local] Hint Resolve read_only_resolve_loop : frame.
#[local] Hint Resolve unique_names_insert_loop unique_names_revoke_loop : inv.

(** Names are unique in the empty database, and every operation of the
    package that writes keeps them unique (the reads change nothing). *)
Lemma unique_names_invariant :
  unique_names empty_DB /\
  (forall n, preserves unique_names (CreateRole n)) /\
  (forall n, preserves unique_names (CreatePermission n)) /\
  (forall r ps, preserves unique_names (AssignPermissions r ps)) /\
  (forall u r, preserves unique_names (AssignRole u r)) /\
  (forall u r, preserves unique_names (RevokeRole u r)) /\
  (forall u p, preserves unique_names (RevokePermission u p)) /\
  (forall r p, preserves unique_names (RevokeRolePermission r p)) /\
  (forall r, preserves unique_names (DeleteRole r)) /\
  (forall p, preserves unique_names (DeletePermission p)).
Proof.
  split; [exact unique_names_empty|].
  repeat match goal with |- _ /\ _ => split end; intros.
  - unfold CreateRole. keeps.
  - unfold CreatePermission. keeps.
  - unfold AssignPermissions. keeps.
  - unfold AssignRole. keeps.
  - unfold RevokeRole. keeps.
  - unfold RevokePermission. keeps.
  - unfold RevokeRolePermission. keeps.
  - unfold DeleteRole. keeps.
  - unfold DeletePermission. keeps.
Qed.

(** ** The statements at the states of the demo *)

Lemma DeleteRole_unassigned_witness :
  role_named linked_state "role-1" = Some (mkRole 1 "role-1" "") /\
  (forall ur, In ur (user_roles linked_state) -> UserRole_RoleID ur <> 1) /\
  exists d',
    DeleteRole "role-1" (quiet linked_state) = (None, quiet d') /\
    (forall rp, In rp (role_permissions d') ->
                RolePermission_RoleID rp <> 1) /\
    (exists names, GetRoles (quiet d') = ((names, None), quiet d') /\
                   ~ In "role-1" names).
Proof.
  assert (H1 : role_named linked_state "role-1" = Some (mkRole 1 "role-1" ""))
    by reflexivity.
  assert (H2 : forall ur, In ur (user_roles linked_state) ->
                          UserRole_RoleID ur <> Role_ID (mkRole 1 "role-1" ""))
    by (intros ur []).
  split; [exact H1|]. split; [exact H2|].
  destruct (@DeleteRole_unassigned linked_state "role-1" _ H1 H2)
    as [d' [Hrun [Hrp [_ [_ [Hget _]]]]]].
  exists d'. split; [exact Hrun|]. split; [exact Hrp | exact Hget].
Defined.

Lemma AssignRole_once_witness :
  role_named demo_state "role-1" = Some (mkRole 1 "role-1" "") /\
  (0 < count_user_role demo_state 1 1)%nat /\
  AssignRole 1 "role-1" (quiet demo_state) =
  (Some ErrRoleAlreadyAssigned, quiet demo_state) /\
  count_user_role linked_state 1 1 = 0%nat /\
  exists d',
    AssignRole 1 "role-1" (quiet linked_state) = (None, quiet d') /\
    count_user_role d' 1 1 = 1%nat.
Proof.
  assert (H1 : role_named demo_state "role-1" = Some (mkRole 1 "role-1" ""))
    by reflexivity.
  assert (H2 : (0 < count_user_role demo_state 1
                      (Role_ID (mkRole 1 "role-1" "")))%nat)
    by (vm_compute; lia).
  assert (H3 : role_named linked_state "role-1" = Some (mkRole 1 "role-1" ""))
    by reflexivity.
  assert (H4 : count_user_role linked_state 1
                 (Role_ID (mkRole 1 "role-1" "")) = 0%nat)
    by reflexivity.
  split; [exact H1|]. split; [exact H2|].
  split; [exact (proj1 (@AssignRole_once demo_state 1 "role-1" _ H1) H2)|].
  split; [exact H4|].
  destruct (proj2 (@AssignRole_once linked_state 1 "role-1" _ H3) H4)
    as [d' [Hrun [_ [Hc _]]]].
  exists d'. split; [exact Hrun | exact Hc].
Defined.

Lemma DeleteRole_in_use_witness :
  role_named demo_state "role-1" = Some (mkRole 1 "role-1" "") /\
  (exists ur, In ur (user_roles demo_state) /\ UserRole_RoleID ur = 1) /\
  DeleteRole "role-1" (quiet demo_state) = (Some ErrRoleInUse, quiet demo_state).
Proof.
  assert (H1 : role_named demo_state "role-1" = Some (mkRole 1 "role-1" ""))
    by reflexivity.
  assert (H2 : exists ur, In ur (user_roles demo_state) /\
                          UserRole_RoleID ur = Role_ID (mkRole 1 "role-1" ""))
    by (exists (mkUserRole 1 1 1); split; [now left | reflexivity]).
  split; [exact H1|]. split; [exact H2|].
  exact (proj1 (@DeleteRole_in_use demo_state "role-1" _ H1 H2)).
Defined.

Lemma CheckPermission_held_witness :
  permission_named demo_state "perm-1" = Some (mkPermission 1 "perm-1" "") /\
  role_named demo_state "role-1" = Some (mkRole 1 "role-1" "") /\
  (exists b,
     CheckPermission 1 "perm-1" (quiet demo_state) =
     ((b, None), quiet demo_state) /\
     (b = true <-> holds_permission demo_state 1 1)) /\
  (exists d',
     RevokeRolePermission "role-1" "perm-1" (quiet demo_state) =
     (None, quiet d') /\
     CheckPermission 1 "perm-1" (quiet d') = ((false, None), quiet d')).
Proof.
  assert (H1 : permission_named demo_state "perm-1" =
               Some (mkPermission 1 "perm-1" "")) by reflexivity.
  assert (H2 : role_named demo_state "role-1" = Some (mkRole 1 "role-1" ""))
    by reflexivity.
  split; [exact H1|]. split; [exact H2|].
  destruct (@CheckPermission_held demo_state 1 "perm-1" _ H1) as [Hb Hrev].
  split; [exact Hb|].
  apply (Hrev "role-1" _ H2).
  intros ur [<-|[]] _ _. reflexivity.
Defined.

Lemma AssignPermissions_all_or_nothing_witness :
  role_named created_state "role-1" = Some (mkRole 1 "role-1" "") /\
  AssignPermissions "role-1" ["perm-1"; "missing"] (quiet created_state) =
  (Some ErrPermissionNotFound, quiet created_state) /\
  exists added,
    AssignPermissions "role-1" ["perm-1"; "perm-2"] (quiet created_state) =
    (None, quiet (with_links created_state added)) /\
    NoDup (map RolePermission_PermissionID added) /\
    linked (with_links created_state added) 1 1 /\
    linked (with_links created_state added) 1 2.
Proof.
  assert (H1 : role_named created_state "role-1" = Some (mkRole 1 "role-1" ""))
    by reflexivity.
  split; [exact H1|].
  destruct (@AssignPermissions_all_or_nothing created_state "role-1"
              ["perm-1"; "missing"] _ H1) as [Hfail _].
  split.
  { apply Hfail. exists "missing". split; [right; now left|].
    intros p [<-|[<-|[]]]; discriminate. }
  destruct (@AssignPermissions_all_or_nothing created_state "role-1"
              ["perm-1"; "perm-2"] _ H1) as [_ Hok].
  destruct (Hok [mkPermission 1 "perm-1" ""; mkPermission 2 "perm-2" ""])
    as [added [Hrun [_ [Hnd Hall]]]].
  { repeat constructor. }
  exists added. split; [exact Hrun|]. split; [exact Hnd|]. split.
  - apply (Hall (mkPermission 1 "perm-1" "")). now left.
  - apply (Hall (mkPermission 2 "perm-2" "")). right. now left.
Defined.

Lemma CheckRole_unknown_or_unassigned_witness :
  (forall r, In r (roles demo_state) -> Role_Name r <> "nonexistent") /\
  CheckRole 1 "nonexistent" (quiet demo_state) =
  ((false, Some ErrRoleNotFound), quiet demo_state) /\
  role_named demo_state "role-1" = Some (mkRole 1 "role-1" "") /\
  CheckRole 2 "role-1" (quiet demo_state) = ((false, None), quiet demo_state).
Proof.
  assert (H1 : forall r, In r (roles demo_state) ->
                         Role_Name r <> "nonexistent")
    by (intros r [<-|[]]; discriminate).
  assert (H2 : role_named demo_state "role-1" = Some (mkRole 1 "role-1" ""))
    by reflexivity.
  split; [exact H1|].
  split; [exact (proj1 (CheckRole_unknown_or_unassigned demo_state 1
                          "nonexistent") H1)|].
  split; [exact H2|].
  apply (proj2 (CheckRole_unknown_or_unassigned demo_state 2 "role-1") _ H2).
  intros ur [<-|[]] [Hu _]. discriminate Hu.
Defined.

Lemma Create_twice_witness :
  unique_names empty_DB /\
  (exists d1,
     CreateRole "r" (quiet empty_DB) = (None, quiet d1) /\
     CreateRole "r" (quiet d1) = (None, quiet d1) /\
     count_role_name d1 "r" = 1%nat) /\
  (exists d1,
     CreatePermission "p" (quiet empty_DB) = (None, quiet d1) /\
     CreatePermission "p" (quiet d1) = (None, quiet d1) /\
     count_permission_name d1 "p" = 1%nat).
Proof.
  assert (H : unique_names empty_DB) by (split; constructor).
  split; [exact H|]. split.
  - destruct (proj1 (@Create_twice empty_DB "r" H)) as [d1 [R1 [R2 [Hc _]]]].
    exists d1. split; [exact R1|]. split; [exact R2 | exact Hc].
  - destruct (proj2 (@Create_twice empty_DB "p" H)) as [d1 [R1 [R2 [Hc _]]]].
    exists d1. split; [exact R1|]. split; [exact R2 | exact Hc].
Defined.

(** ** When the driver fails a lookup that guards a write *)

(** The guards of [DeleteRole] and [AssignRole] read "no error" as "a row
    exists": a lookup that the driver fails counts as "no row", and the write
    goes on.  The statements above are about a store that does not fail. *)
Remark DeleteRole_guard_lookup_fails :
  DeleteRole "role-1" (mkWorld demo_state [None; Some "connection reset"]) =
  (None,
   quiet (mkDB [] (permissions demo_state) [] []
               (roles_id_seq demo_state) (permissions_id_seq demo_state)
               (role_permissions_id_seq demo_state)
               (user_roles_id_seq demo_state))).
Proof. reflexivity. Qed.

Remark AssignRole_guard_lookup_fails :
  count_user_role
    (db (snd (AssignRole 1 "role-1"
                (mkWorld demo_state [None; Some "connection reset"]))))
    1 1 = 2%nat.
Proof. reflexivity. Qed.

(** ** The scenarios of the demo, run *)

Example run_creation_twice :
  (_ <- CreateRole "r" ;; CreateRole "r") (quiet empty_DB) =
  (None, quiet (mkDB [mkRole 1 "r" ""] [] [] [] 2 1 1 1)).
Proof. reflexivity. Qed.

Example run_assignment_twice :
  (_ <- AssignRole 1 "role-1" ;; AssignRole 1 "role-1") (quiet linked_state) =
  (Some ErrRoleAlreadyAssigned, quiet demo_state).
Proof. reflexivity. Qed.

Example run_deletion_guard :
  DeleteRole "role-1" (quiet demo_state) = (Some ErrRoleInUse, quiet demo_state).
Proof. reflexivity. Qed.

Example run_deletion :
  (_ <- DeleteRole "role-1" ;; GetRoles) (quiet linked_state) =
  (([], None),
   quiet (mkDB [] (permissions linked_state) [] [] 2 3 3 1)).
Proof. reflexivity. Qed.

Example run_permission_propagation :
  fst (CheckPermission 1 "perm-1" (quiet demo_state)) = (true, None) /\
  fst ((_ <- RevokeRolePermission "role-1" "perm-1" ;;
        CheckPermission 1 "perm-1") (quiet demo_state)) = (false, None).
Proof. split; reflexivity. Qed.

Example run_revocation_twice :
  fst ((_ <- RevokeRole 1 "role-1" ;; RevokeRole 1 "role-1")
         (quiet demo_state)) = None.
Proof. reflexivity. Qed.

Example run_listings :
  fst (GetRoles (quiet demo_state)) = (["role-1"], None) /\
  fst (GetUserRoles 1 (quiet demo_state)) = (["role-1"], None) /\
  fst (GetPermissions (quiet demo_state)) = (["perm-1"; "perm-2"], None).
Proof. repeat split. Qed.

(** * Further properties of the operations *)

(** ** The operations on a store that does not fail *)

Lemma role_named_absent d roleName :
  (forall r, In r (roles d) -> Role_Name r <> roleName) <->
  role_named d roleName = None.
Proof.
  unfold role_named. split.
  - intros H. apply find_absent. intros r Hr. apply String.eqb_neq. now apply H.
  - intros H r Hr. apply String.eqb_neq. now apply (find_none _ _ H).
Qed.

Lemma permission_named_absent d permName :
  (forall p, In p (permissions d) -> Permission_Name p <> permName) <->
  permission_named d permName = None.
Proof.
  unfold permission_named. split.
  - intros H. apply find_absent. intros p Hp. apply String.eqb_neq. now apply H.
  - intros H p Hp. apply String.eqb_neq. now apply (find_none _ _ H).
Qed.

Lemma resolve_quiet d permNames :
  forall acc,
    AssignPermissions_resolve permNames acc (quiet d) =
    (match resolved d permNames with
     | Some perms => Ok (acc ++ perms)%list
     | None => Err ErrPermissionNotFound
     end, quiet d).
Proof.
  induction permNames as [|n rest IH]; intros acc; simpl.
  - now rewrite app_nil_r.
  - unfold bind. rewrite getPermission_quiet.
    destruct (permission_named d n) as [p|]; [|reflexivity].
    rewrite IH. destruct (resolved d rest); [|reflexivity].
    now rewrite <- app_assoc.
Qed.

Lemma resolved_Forall2 d permNames :
  forall perms,
    resolved d permNames = Some perms <->
    Forall2 (fun n p => permission_named d n = Some p) permNames perms.
Proof.
  induction permNames as [|n rest IH]; intros perms; simpl.
  - split; [intros [= <-]; constructor | intros H; now inversion H].
  - destruct (permission_named d n) as [p|] eqn:Hn.
    + destruct (resolved d rest) as [ps|] eqn:Hr.
      * split.
        -- intros [= <-]. constructor; [assumption | now apply IH].
        -- intros H. inversion H as [|? q ? qs Hq Hqs]; subst.
           apply IH in Hqs. congruence.
      * split; [discriminate|].
        intros H. inversion H as [|? q ? qs Hq Hqs]; subst.
        apply IH in Hqs. discriminate.
    + split; [discriminate|].
      intros H. inversion H; subst. congruence.
Qed.

Lemma AssignPermissions_quiet d roleName permNames :
  AssignPermissions roleName permNames (quiet d) =
  match role_named d roleName, resolved d permNames with
  | None, _ => (Some ErrRoleNotFound, quiet d)
  | Some _, None => (Some ErrPermissionNotFound, quiet d)
  | Some role, Some perms =>
      (None,
       quiet (with_links d
                (links_to_add (Role_ID role) (role_permissions d)
                   (role_permissions_id_seq d) perms)))
  end.
Proof.
  unfold AssignPermissions, bind. rewrite getRole_quiet.
  destruct (role_named d roleName) as [role|]; [|reflexivity].
  rewrite resolve_quiet.
  destruct (resolved d permNames) as [perms|]; [|reflexivity].
  simpl. apply insert_all.
Qed.

Lemma AssignRole_quiet d userID roleName :
  AssignRole userID roleName (quiet d) =
  match role_named d roleName with
  | None => (Some ErrRoleNotFound, quiet d)
  | Some role =>
      match find (fun ur => (UserRole_UserID ur =? userID) &&
                            (UserRole_RoleID ur =? Role_ID role))
                 (user_roles d) with
      | Some _ => (Some ErrRoleAlreadyAssigned, quiet d)
      | None =>
          (None,
           quiet (mkDB (roles d) (permissions d) (role_permissions d)
                    (user_roles d ++
                       [mkUserRole (user_roles_id_seq d) userID (Role_ID role)])
                    (roles_id_seq d) (permissions_id_seq d)
                    (role_permissions_id_seq d) (user_roles_id_seq d + 1)))
      end
  end.
Proof.
  unfold AssignRole, bind. rewrite getRole_quiet.
  destruct (role_named d roleName) as [role|]; [|reflexivity].
  rewrite getUserRole_quiet.
  destruct (find _ (user_roles d)); [reflexivity|].
  unfold Insert_UserRole. now rewrite round_trip_quiet.
Qed.

Lemma CheckRole_quiet d userID roleName :
  CheckRole userID roleName (quiet d) =
  (match role_named d roleName with
   | None => (false, Some ErrRoleNotFound)
   | Some role =>
       match find (fun ur => (UserRole_UserID ur =? userID) &&
                             (UserRole_RoleID ur =? Role_ID role))
                  (user_roles d) with
       | Some _ => (true, None)
       | None => (false, None)
       end
   end, quiet d).
Proof.
  unfold CheckRole, bind. rewrite getRole_quiet.
  destruct (role_named d roleName) as [role|]; [|reflexivity].
  rewrite getUserRole_quiet.
  now destruct (find _ (user_roles d)).
Qed.

Lemma CheckRolePermission_quiet d roleName permName :
  CheckRolePermission roleName permName (quiet d) =
  (match role_named d roleName, permission_named d permName with
   | None, _ => (false, Some ErrRoleNotFound)
   | Some _, None => (false, Some ErrPermissionNotFound)
   | Some role, Some perm =>
       match find (fun rp =>
                     (RolePermission_RoleID rp =? Role_ID role) &&
                     (RolePermission_PermissionID rp =? Permission_ID perm))
                  (role_permissions d) with
       | Some _ => (true, None)
       | None => (false, None)
       end
   end, quiet d).
Proof.
  unfold CheckRolePermission, bind. rewrite getRole_quiet.
  destruct (role_named d roleName) as [role|]; [|reflexivity].
  rewrite getPermission_quiet.
  destruct (permission_named d permName) as [perm|]; [|reflexivity].
  rewrite getRolePermission_quiet.
  now destruct (find _ (role_permissions d)).
Qed.

Lemma RevokeRole_quiet d userID roleName :
  RevokeRole userID roleName (quiet d) =
  match role_named d roleName with
  | None => (Some ErrRoleNotFound, quiet d)
  | Some role =>
      (None,
       quiet (mkDB (roles d) (permissions d) (role_permissions d)
                (filter (fun ur => negb ((UserRole_UserID ur =? userID) &&
                                         (UserRole_RoleID ur =? Role_ID role)))
                        (user_roles d))
                (roles_id_seq d) (permissions_id_seq d)
                (role_permissions_id_seq d) (user_roles_id_seq d)))
  end.
Proof.
  unfold RevokeRole, bind. rewrite getRole_quiet.
  destruct (role_named d roleName) as [role|]; [|reflexivity].
  unfold Delete_UserRole. now rewrite round_trip_quiet.
Qed.

Lemma DeleteRole_quiet d roleName :
  DeleteRole roleName (quiet d) =
  match role_named d roleName with
  | None => (Some ErrRoleNotFound, quiet d)
  | Some role =>
      match find (fun ur => UserRole_RoleID ur =? Role_ID role)
                 (user_roles d) with
      | Some _ => (Some ErrRoleInUse, quiet d)
      | None =>
          let gone :=
            map Role_ID
                (filter (fun r => Role_Name r =? roleName)%string (roles d)) in
          (None,
           quiet (mkDB (filter (fun r => negb (Role_Name r =? roleName)%string)
                               (roles d))
                    (permissions d)
                    (filter (fun rp =>
                               negb (id_in gone (RolePermission_RoleID rp)))
                            (role_permissions d))
                    (filter (fun ur => negb (id_in gone (UserRole_RoleID ur)))
                            (user_roles d))
                    (roles_id_seq d) (permissions_id_seq d)
                    (role_permissions_id_seq d) (user_roles_id_seq d)))
      end
  end.
Proof.
  unfold DeleteRole, bind. rewrite getRole_quiet.
  destruct (role_named d roleName) as [role|]; [|reflexivity].
  rewrite Scan_row_quiet.
  destruct (find _ (user_roles d)); [reflexivity|].
  rewrite Select_Exec_quiet. unfold Delete_Role.
  now rewrite round_trip_quiet.
Qed.

Lemma DeletePermission_quiet d permName :
  DeletePermission permName (quiet d) =
  match permission_named d permName with
  | None => (Some ErrPermissionNotFound, quiet d)
  | Some perm =>
      match find (fun rp =>
                    RolePermission_PermissionID rp =? Permission_ID perm)
                 (role_permissions d) with
      | Some _ => (Some ErrPermissionInUse, quiet d)
      | None =>
          let gone :=
            map Permission_ID
                (filter (fun p => Permission_Name p =? permName)%string
                        (permissions d)) in
          (None,
           quiet (mkDB (roles d)
                    (filter (fun p => negb (Permission_Name p =? permName)%string)
                            (permissions d))
                    (filter (fun rp =>
                               negb (id_in gone
                                       (RolePermission_PermissionID rp)))
                            (role_permissions d))
                    (user_roles d)
                    (roles_id_seq d) (permissions_id_seq d)
                    (role_permissions_id_seq d) (user_roles_id_seq d)))
      end
  end.
Proof.
  unfold DeletePermission, bind. rewrite getPermission_quiet.
  destruct (permission_named d permName) as [perm|]; [|reflexivity].
  rewrite Scan_row_quiet.
  destruct (find _ (role_permissions d)); [reflexivity|].
  unfold Delete_Permission. now rewrite round_trip_quiet.
Qed.

Lemma find_app_none_last {A : Type} (f : A -> bool) (l l' : list A) :
  find f l = None -> find f (l ++ l') = find f l'.
Proof.
  induction l as [|a l IH]; simpl; [reflexivity|].
  destruct (f a); [discriminate | exact IH].
Qed.

Lemma find_app_found {A : Type} (f : A -> bool) (l l' : list A) (x : A) :
  find f l = Some x -> find f (l ++ l') = Some x.
Proof.
  induction l as [|a l IH]; simpl; [discriminate|].
  destruct (f a); [trivial | exact IH].
Qed.

Lemma filter_filter_and {A : Type} (f g : A -> bool) (l : list A) :
  filter g (filter f l) = filter (fun x => f x && g x) l.
Proof.
  induction l as [|a l IH]; simpl; [reflexivity|].
  destruct (f a); simpl; [|assumption].
  destruct (g a); now rewrite IH.
Qed.

Lemma filter_idem {A : Type} (f : A -> bool) (l : list A) :
  filter f (filter f l) = filter f l.
Proof.
  rewrite filter_filter_and. apply filter_ext. intros a. now destruct (f a).
Qed.

Lemma filter_keeps_all {A : Type} (f : A -> bool) (l : list A) :
  (forall x, In x l -> f x = true) -> filter f l = l.
Proof.
  induction l as [|a l IH]; simpl; intros H; [reflexivity|].
  rewrite (H a) by now left. f_equal. apply IH. intros x Hx. apply H. now right.
Qed.

(** The loop of [RevokePermission] removes, in one pass per role, the links
    between the roles of the rows and the permission. *)
Lemma revoke_loop_quiet permID userRoles :
  forall d,
    RevokePermission_loop userRoles permID (quiet d) =
    (None,
     quiet (mkDB (roles d) (permissions d)
              (filter (fun rp =>
                         negb (id_in (map UserRole_RoleID userRoles)
                                     (RolePermission_RoleID rp) &&
                               (RolePermission_PermissionID rp =? permID)))
                      (role_permissions d))
              (user_roles d)
              (roles_id_seq d) (permissions_id_seq d)
              (role_permissions_id_seq d) (user_roles_id_seq d))).
Proof.
  induction userRoles as [|r rest IH]; intros d; simpl.
  - rewrite filter_all. now destruct d.
  - unfold bind, Delete_RolePermission. rewrite round_trip_quiet. simpl.
    rewrite IH. simpl. rewrite filter_filter_and.
    do 3 f_equal. apply filter_ext. intros rp. unfold id_in. simpl.
    destruct (RolePermission_RoleID rp =? UserRole_RoleID r);
      destruct (RolePermission_PermissionID rp =? permID);
      destruct (existsb _ _); reflexivity.
Qed.

Lemma RevokePermission_quiet d userID permName :
  RevokePermission userID permName (quiet d) =
  match permission_named d permName with
  | None => (Some ErrPermissionNotFound, quiet d)
  | Some perm =>
      (None,
       quiet (mkDB (roles d) (permissions d)
                (filter (fun rp =>
                           negb (id_in
                                   (map UserRole_RoleID
                                      (filter (fun ur =>
                                                 UserRole_UserID ur =? userID)
                                              (user_roles d)))
                                   (RolePermission_RoleID rp) &&
                                 (RolePermission_PermissionID rp =?
                                    Permission_ID perm)))
                        (role_permissions d))
                (user_roles d)
                (roles_id_seq d) (permissions_id_seq d)
                (role_permissions_id_seq d) (user_roles_id_seq d)))
  end.
Proof.
  unfold RevokePermission, bind. rewrite Scan_rows_quiet. simpl.
  rewrite getPermission_quiet.
  destruct (permission_named d permName) as [perm|]; [|reflexivity].
  apply revoke_loop_quiet.
Qed.

Lemma CheckPermission_quiet_total d userID permName :
  CheckPermission userID permName (quiet d) =
  (match permission_named d permName with
   | None => (false, Some ErrPermissionNotFound)
   | Some perm =>
       match find (fun rp =>
                     id_in (map UserRole_RoleID
                              (filter (fun ur => UserRole_UserID ur =? userID)
                                      (user_roles d)))
                           (RolePermission_RoleID rp) &&
                     (RolePermission_PermissionID rp =? Permission_ID perm))
                  (role_permissions d) with
       | Some _ => (true, None)
       | None => (false, None)
       end
   end, quiet d).
Proof.
  unfold CheckPermission, bind. rewrite Scan_rows_quiet. simpl.
  rewrite getPermission_quiet.
  destruct (permission_named d permName) as [perm|]; [|reflexivity].
  rewrite Scan_row_quiet.
  now destruct (find _ (role_permissions d)).
Qed.

Lemma RevokeRolePermission_quiet_total d roleName permName :
  RevokeRolePermission roleName permName (quiet d) =
  match role_named d roleName, permission_named d permName with
  | None, _ => (Some ErrRoleNotFound, quiet d)
  | Some _, None => (Some ErrPermissionNotFound, quiet d)
  | Some role, Some perm =>
      (None,
       quiet (mkDB (roles d) (permissions d)
                (filter (fun rp =>
                           negb ((RolePermission_RoleID rp =? Role_ID role) &&
                                 (RolePermission_PermissionID rp =?
                                    Permission_ID perm)))
                        (role_permissions d))
                (user_roles d)
                (roles_id_seq d) (permissions_id_seq d)
                (role_permissions_id_seq d) (user_roles_id_seq d)))
  end.
Proof.
  destruct (role_named d roleName) as [role|] eqn:Hr.
  - destruct (permission_named d permName) as [perm|] eqn:Hp.
    + now apply RevokeRolePermission_quiet.
    + unfold RevokeRolePermission, bind.
      now rewrite getRole_quiet, Hr, getPermission_quiet, Hp.
  - unfold RevokeRolePermission, bind. now rewrite getRole_quiet, Hr.
Qed.

Lemma GetRoles_quiet d :
  GetRoles (quiet d) = ((map Role_Name (roles d), None), quiet d).
Proof.
  unfold GetRoles, bind. rewrite Scan_rows_quiet. simpl. now rewrite filter_all.
Qed.

Lemma GetPermissions_quiet d :
  GetPermissions (quiet d) =
  ((map Permission_Name (permissions d), None), quiet d).
Proof.
  unfold GetPermissions, bind. rewrite Scan_rows_quiet. simpl.
  now rewrite filter_all.
Qed.

Lemma GetUserRoles_loop_quiet d userRoles :
  forall result_,
    GetUserRoles_loop userRoles result_ (quiet d) =
    ((result_ ++ names_of d userRoles)%list, quiet d).
Proof.
  induction userRoles as [|r rest IH]; intros result_; simpl.
  - now rewrite app_nil_r.
  - unfold bind. rewrite Scan_row_quiet.
    destruct (find _ (roles d)) as [role|]; rewrite IH; simpl.
    + now rewrite <- app_assoc.
    + reflexivity.
Qed.

Lemma GetUserRoles_quiet d userID :
  GetUserRoles userID (quiet d) =
  ((names_of d (filter (fun ur => UserRole_UserID ur =? userID)
                       (user_roles d)), None), quiet d).
Proof.
  unfold GetUserRoles, bind. rewrite Scan_rows_quiet. simpl.
  now rewrite GetUserRoles_loop_quiet.
Qed.

(** ** Unknown names *)

(** X1.  On a store that does not fail, every operation that takes a role
    name other than [CreateRole] refuses a name that no role row has with
    [ErrRoleNotFound], whatever its other arguments, and leaves the database
    unchanged. *)
Theorem unknown_role_rejected d roleName :
  (forall r, In r (roles d) -> Role_Name r <> roleName) ->
  (forall permNames,
     AssignPermissions roleName permNames (quiet d) =
     (Some ErrRoleNotFound, quiet d)) /\
  (forall userID,
     AssignRole userID roleName (quiet d) = (Some ErrRoleNotFound, quiet d)) /\
  (forall userID,
     CheckRole userID roleName (quiet d) =
     ((false, Some ErrRoleNotFound), quiet d)) /\
  (forall permName,
     CheckRolePermission roleName permName (quiet d) =
     ((false, Some ErrRoleNotFound), quiet d)) /\
  (forall userID,
     RevokeRole userID roleName (quiet d) = (Some ErrRoleNotFound, quiet d)) /\
  (forall permName,
     RevokeRolePermission roleName permName (quiet d) =
     (Some ErrRoleNotFound, quiet d)) /\
  DeleteRole roleName (quiet d) = (Some ErrRoleNotFound, quiet d).
Proof.
  intros Habs. apply role_named_absent in Habs.
  repeat match goal with |- _ /\ _ => split end; intros.
  - now rewrite AssignPermissions_quiet, Habs.
  - now rewrite AssignRole_quiet, Habs.
  - now rewrite CheckRole_quiet, Habs.
  - now rewrite CheckRolePermission_quiet, Habs.
  - now rewrite RevokeRole_quiet, Habs.
  - now rewrite RevokeRolePermission_quiet_total, Habs.
  - now rewrite DeleteRole_quiet, Habs.
Qed.

(** X2.  On a store that does not fail, a permission name that no permission
    row has is refused with [ErrPermissionNotFound] and the database is left
    unchanged: by [CheckPermission] and [RevokePermission] for every user,
    also one with no role; by [DeletePermission]; and, once the role name
    resolves, by [CheckRolePermission] and [RevokeRolePermission]. *)
Theorem unknown_permission_rejected d permName :
  (forall p, In p (permissions d) -> Permission_Name p <> permName) ->
  (forall userID,
     CheckPermission userID permName (quiet d) =
     ((false, Some ErrPermissionNotFound), quiet d)) /\
  (forall userID,
     RevokePermission userID permName (quiet d) =
     (Some ErrPermissionNotFound, quiet d)) /\
  DeletePermission permName (quiet d) =
  (Some ErrPermissionNotFound, quiet d) /\
  (forall roleName role,
     role_named d roleName = Some role ->
     CheckRolePermission roleName permName (quiet d) =
     ((false, Some ErrPermissionNotFound), quiet d) /\
     RevokeRolePermission roleName permName (quiet d) =
     (Some ErrPermissionNotFound, quiet d)).
Proof.
  intros Habs. apply permission_named_absent in Habs.
  repeat match goal with |- _ /\ _ => split end; intros.
  - now rewrite CheckPermission_quiet_total, Habs.
  - now rewrite RevokePermission_quiet, Habs.
  - now rewrite DeletePermission_quiet, Habs.
  - match goal with H : role_named _ _ = _ |- _ => rename H into Hr end.
    split.
    + now rewrite CheckRolePermission_quiet, Hr, Habs.
    + now rewrite RevokeRolePermission_quiet_total, Hr, Habs.
Qed.

(** ** [CheckRole], [AssignRole] and [RevokeRole] together *)

Lemma holds_role_find d userID roleID :
  find (fun ur => (UserRole_UserID ur =? userID) &&
                  (UserRole_RoleID ur =? roleID)) (user_roles d) <> None <->
  holds_role d userID roleID.
Proof.
  split.
  - destruct (find _ (user_roles d)) as [ur|] eqn:Hf; [|congruence].
    intros _. apply find_some in Hf as [Hin Hp].
    apply andb_true_iff in Hp as [H1 H2].
    exists ur. split; [assumption|]. split; now apply N.eqb_eq.
  - intros [ur [Hin [H1 H2]]] Hf.
    apply find_none with (x := ur) in Hf; [|assumption].
    rewrite H1, H2, !N.eqb_refl in Hf. discriminate.
Qed.

(** X3.  On a store that does not fail and for a name that resolves to a
    role, [CheckRole] returns no error, and returns [true] exactly when a
    [user_roles] row joins the user to the role. *)
Theorem CheckRole_holds d userID roleName role :
  role_named d roleName = Some role ->
  exists b,
    CheckRole userID roleName (quiet d) = ((b, None), quiet d) /\
    (b = true <-> holds_role d userID (Role_ID role)).
Proof.
  intros Hrole. rewrite CheckRole_quiet, Hrole.
  pose proof (holds_role_find d userID (Role_ID role)) as Hh.
  destruct (find _ (user_roles d)) as [ur|].
  - exists true. split; [reflexivity|]. split; [intros _|reflexivity].
    apply Hh. discriminate.
  - exists false. split; [reflexivity|]. split; [discriminate|].
    intros H. apply Hh in H. congruence.
Qed.

(** X4.  On a store that does not fail and for a name that resolves to a
    role, [RevokeRole] returns no error whether or not the user had the
    role; it removes exactly the [user_roles] rows of the pair and touches
    no other table; afterwards [CheckRole] returns [false], and revoking
    again returns no error and changes nothing. *)
Theorem RevokeRole_idempotent d userID roleName role :
  role_named d roleName = Some role ->
  exists d',
    RevokeRole userID roleName (quiet d) = (None, quiet d') /\
    (forall ur, In ur (user_roles d') <->
                In ur (user_roles d) /\
                ~ (UserRole_UserID ur = userID /\
                   UserRole_RoleID ur = Role_ID role)) /\
    roles d' = roles d /\ permissions d' = permissions d /\
    role_permissions d' = role_permissions d /\
    CheckRole userID roleName (quiet d') = ((false, None), quiet d') /\
    RevokeRole userID roleName (quiet d') = (None, quiet d').
Proof.
  intros Hrole. eexists. split; [now rewrite RevokeRole_quiet, Hrole|].
  assert (Hrows : forall ur,
             In ur (filter (fun ur => negb ((UserRole_UserID ur =? userID) &&
                                            (UserRole_RoleID ur =? Role_ID role)))
                           (user_roles d)) <->
             In ur (user_roles d) /\
             ~ (UserRole_UserID ur = userID /\ UserRole_RoleID ur = Role_ID role)).
  { intros ur. rewrite filter_In, negb_true_iff, andb_false_iff, !N.eqb_neq.
    split; intros [Hin H]; (split; [assumption|]).
    - intros [H1 H2]. destruct H; contradiction.
    - destruct (N.eq_dec (UserRole_UserID ur) userID) as [Hu|Hu];
        [right | now left].
      intros Hr. apply H. now split. }
  split; [exact Hrows|]. simpl. repeat split.
  - rewrite CheckRole_quiet. unfold role_named in *. simpl. rewrite Hrole.
    rewrite find_absent; [reflexivity|].
    intros ur Hur. apply filter_In in Hur as [_ Hur].
    now apply negb_true_iff.
  - rewrite RevokeRole_quiet. unfold role_named in *. simpl. rewrite Hrole.
    simpl. now rewrite filter_idem.
Qed.

(** X5.  On a store that does not fail, for a name that resolves to a role
    the user does not have: [AssignRole] succeeds and [CheckRole] then
    returns [true]; [RevokeRole] after it succeeds, gives back the
    [user_roles] table as it was before the assignment, and [CheckRole]
    returns [false] again. *)
Theorem AssignRole_then_RevokeRole d userID roleName role :
  role_named d roleName = Some role ->
  ~ holds_role d userID (Role_ID role) ->
  exists d1 d2,
    AssignRole userID roleName (quiet d) = (None, quiet d1) /\
    CheckRole userID roleName (quiet d1) = ((true, None), quiet d1) /\
    RevokeRole userID roleName (quiet d1) = (None, quiet d2) /\
    user_roles d2 = user_roles d /\
    CheckRole userID roleName (quiet d2) = ((false, None), quiet d2).
Proof.
  intros Hrole Hnot.
  assert (Hnone : find (fun ur => (UserRole_UserID ur =? userID) &&
                                  (UserRole_RoleID ur =? Role_ID role))
                       (user_roles d) = None).
  { destruct (find _ (user_roles d)) eqn:Hf; [|reflexivity].
    exfalso. apply Hnot, holds_role_find. congruence. }
  do 2 eexists. split; [now rewrite AssignRole_quiet, Hrole, Hnone|].
  split.
  { rewrite CheckRole_quiet. unfold role_named in *. simpl. rewrite Hrole.
    rewrite find_app_none_last by exact Hnone. simpl.
    now rewrite !N.eqb_refl. }
  split.
  { rewrite RevokeRole_quiet. unfold role_named in *. simpl. rewrite Hrole.
    reflexivity. }
  assert (Hkeep : filter (fun ur => negb ((UserRole_UserID ur =? userID) &&
                                          (UserRole_RoleID ur =? Role_ID role)))
                         (user_roles d ++
                            [mkUserRole (user_roles_id_seq d) userID
                                        (Role_ID role)]) = user_roles d).
  { rewrite filter_app. simpl. rewrite !N.eqb_refl. simpl. rewrite app_nil_r.
    apply filter_keeps_all. intros ur Hur.
    apply find_none with (x := ur) in Hnone; [|assumption].
    now rewrite Hnone. }
  simpl. split; [exact Hkeep|].
  rewrite CheckRole_quiet. unfold role_named in *. simpl. rewrite Hrole.
  rewrite Hkeep, Hnone. reflexivity.
Qed.

(** ** Links between roles and permissions *)

(** X6.  On a store that does not fail and for names that resolve to a role
    and to a permission, [CheckRolePermission] returns no error, and returns
    [true] exactly when a [role_permissions] row links the two; when it
    does, [CheckPermission] returns [true] for every user who holds the
    role. *)
Theorem CheckRolePermission_linked d roleName permName role perm :
  role_named d roleName = Some role ->
  permission_named d permName = Some perm ->
  exists b,
    CheckRolePermission roleName permName (quiet d) = ((b, None), quiet d) /\
    (b = true <-> linked d (Role_ID role) (Permission_ID perm)) /\
    (b = true ->
     forall userID, holds_role d userID (Role_ID role) ->
       CheckPermission userID permName (quiet d) = ((true, None), quiet d)).
Proof.
  intros Hrole Hperm. rewrite CheckRolePermission_quiet, Hrole, Hperm.
  pose proof (linked_in_find (role_permissions d) (Role_ID role)
                (Permission_ID perm)) as Hl.
  destruct (find _ (role_permissions d)) as [rp|].
  - exists true. split; [reflexivity|].
    assert (Hlinked : linked d (Role_ID role) (Permission_ID perm))
      by (apply Hl; discriminate).
    split; [split; [now intros _ | reflexivity]|].
    intros _ userID [ur [Hur [Hu Hr]]].
    rewrite CheckPermission_quiet_total, Hperm.
    pose proof (held_link_found d userID (Permission_ID perm)) as Hh.
    destruct (find _ (role_permissions d)); [reflexivity|].
    exfalso. apply (proj2 Hh); [|reflexivity].
    exists ur. split; [assumption|]. split; [assumption|]. now rewrite Hr.
  - exists false. split; [reflexivity|]. split; [|discriminate].
    split; [discriminate|]. intros H. apply Hl in H. congruence.
Qed.

Lemma links_to_add_linked roleID perms :
  forall rps seq,
    (forall p, In p perms -> linked_in rps roleID (Permission_ID p)) ->
    links_to_add roleID rps seq perms = [].
Proof.
  induction perms as [|perm rest IH]; intros rps seq Hall; simpl;
    [reflexivity|].
  pose proof (linked_in_find rps roleID (Permission_ID perm)) as Hl.
  destruct (find _ rps).
  - apply IH. intros p Hp. apply Hall. now right.
  - exfalso. apply (proj2 Hl); [|reflexivity]. apply Hall. now left.
Qed.

Lemma resolved_same_permissions d d' permNames :
  permissions d' = permissions d ->
  resolved d' permNames = resolved d permNames.
Proof.
  intros H. induction permNames as [|n rest IH]; simpl; [reflexivity|].
  unfold permission_named. now rewrite H, IH.
Qed.

Lemma Forall2_resolved_In d permNames perms n :
  Forall2 (fun n p => permission_named d n = Some p) permNames perms ->
  In n permNames ->
  exists p, In p perms /\ permission_named d n = Some p.
Proof.
  induction 1 as [|m p ms ps Hm Hrest IH]; intros Hin; [contradiction|].
  destruct Hin as [->|Hin].
  - exists p. split; [now left | assumption].
  - destruct (IH Hin) as [q [Hq1 Hq2]]. exists q. split; [now right | assumption].
Qed.

(** X7.  On a store that does not fail, when the role name and every
    permission name resolve: after [AssignPermissions], [CheckRolePermission]
    returns [true] for the role and each of the names, and a second
    [AssignPermissions] with the same arguments returns no error and changes
    nothing, not even the sequence of the link table. *)
Theorem AssignPermissions_idempotent d roleName permNames role perms :
  role_named d roleName = Some role ->
  Forall2 (fun n p => permission_named d n = Some p) permNames perms ->
  exists d1,
    AssignPermissions roleName permNames (quiet d) = (None, quiet d1) /\
    (forall n, In n permNames ->
       CheckRolePermission roleName n (quiet d1) = ((true, None), quiet d1)) /\
    AssignPermissions roleName permNames (quiet d1) = (None, quiet d1).
Proof.
  intros Hrole Hall.
  assert (Hres : resolved d permNames = Some perms)
    by now apply resolved_Forall2.
  eexists. split; [now rewrite AssignPermissions_quiet, Hrole, Hres|].
  set (added := links_to_add (Role_ID role) (role_permissions d)
                  (role_permissions_id_seq d) perms).
  assert (Hlinked : forall p, In p perms ->
             linked_in (role_permissions (with_links d added)) (Role_ID role)
                       (Permission_ID p)).
  { intros p Hp. simpl. now apply links_to_add_all. }
  assert (Hrole1 : role_named (with_links d added) roleName = Some role)
    by exact Hrole.
  assert (Hres1 : resolved (with_links d added) permNames = Some perms)
    by now rewrite (@resolved_same_permissions d (with_links d added)).
  split.
  - intros n Hn.
    destruct (@Forall2_resolved_In d permNames perms n Hall Hn)
      as [p [Hp Hnp]].
    assert (Hnp1 : permission_named (with_links d added) n = Some p)
      by exact Hnp.
    rewrite CheckRolePermission_quiet, Hrole1, Hnp1.
    pose proof (linked_in_find (role_permissions (with_links d added))
                  (Role_ID role) (Permission_ID p)) as Hl.
    destruct (find _ (role_permissions (with_links d added)));
      [reflexivity|].
    exfalso. apply (proj2 Hl); [|reflexivity]. now apply Hlinked.
  - rewrite AssignPermissions_quiet, Hrole1, Hres1.
    rewrite links_to_add_linked by exact Hlinked.
    now rewrite with_links_nil.
Qed.

(** X8.  On a store that does not fail and for names that resolve to a role
    and to a permission, [RevokeRolePermission] returns no error whether or
    not the link exists; it removes exactly the [role_permissions] rows of
    the pair and touches no other table; afterwards [CheckRolePermission]
    returns [false], and revoking again changes nothing. *)
Theorem RevokeRolePermission_unlinks d roleName permName role perm :
  role_named d roleName = Some role ->
  permission_named d permName = Some perm ->
  exists d',
    RevokeRolePermission roleName permName (quiet d) = (None, quiet d') /\
    (forall rp, In rp (role_permissions d') <->
                In rp (role_permissions d) /\
                ~ links (Role_ID role) (Permission_ID perm) rp) /\
    roles d' = roles d /\ permissions d' = permissions d /\
    user_roles d' = user_roles d /\
    CheckRolePermission roleName permName (quiet d') =
    ((false, None), quiet d') /\
    RevokeRolePermission roleName permName (quiet d') = (None, quiet d').
Proof.
  intros Hrole Hperm. eexists.
  split; [now rewrite RevokeRolePermission_quiet_total, Hrole, Hperm|].
  simpl. split; [|repeat split].
  - intros rp. rewrite filter_In, negb_true_iff, andb_false_iff, !N.eqb_neq.
    unfold links. split; intros [Hin H]; (split; [assumption|]).
    + intros [H1 H2]. destruct H; contradiction.
    + destruct (N.eq_dec (RolePermission_RoleID rp) (Role_ID role)) as [Hr|Hr];
        [right | now left].
      intros Hp. apply H. now split.
  - rewrite CheckRolePermission_quiet. unfold role_named, permission_named in *.
    simpl. rewrite Hrole, Hperm.
    rewrite find_absent; [reflexivity|].
    intros rp Hrp. apply filter_In in Hrp as [_ Hrp].
    now apply negb_true_iff.
  - rewrite RevokeRolePermission_quiet_total.
    unfold role_named, permission_named in *. simpl. rewrite Hrole, Hperm.
    simpl. now rewrite filter_idem.
Qed.

(** X9.  On a store that does not fail and for a name that resolves to a
    permission, [RevokePermission] returns no error; it removes exactly the
    links between the permission and the roles the user holds, so the
    permission is taken from these roles for every user who holds them;
    the other tables are unchanged, and afterwards no role of the user is
    linked to the permission and [CheckPermission] returns [false]. *)
Theorem RevokePermission_unlinks d userID permName perm :
  permission_named d permName = Some perm ->
  exists d',
    RevokePermission userID permName (quiet d) = (None, quiet d') /\
    (forall rp, In rp (role_permissions d') <->
                In rp (role_permissions d) /\
                ~ (RolePermission_PermissionID rp = Permission_ID perm /\
                   holds_role d userID (RolePermission_RoleID rp))) /\
    roles d' = roles d /\ permissions d' = permissions d /\
    user_roles d' = user_roles d /\
    ~ holds_permission d' userID (Permission_ID perm) /\
    CheckPermission userID permName (quiet d') = ((false, None), quiet d').
Proof.
  intros Hperm. eexists.
  split; [now rewrite RevokePermission_quiet, Hperm|].
  set (held := map UserRole_RoleID
                 (filter (fun ur => UserRole_UserID ur =? userID)
                         (user_roles d))).
  assert (Hheld : forall x, In x held <-> holds_role d userID x).
  { intros x. unfold held. rewrite in_map_iff. split.
    - intros [ur [Hx Hur]]. apply filter_In in Hur as [Hur Hu].
      exists ur. split; [assumption|]. split; [now apply N.eqb_eq | assumption].
    - intros [ur [Hur [Hu Hx]]]. exists ur. split; [assumption|].
      apply filter_In. split; [assumption | now apply N.eqb_eq]. }
  assert (Hrows : forall rp,
             In rp (filter (fun rp =>
                              negb (id_in held (RolePermission_RoleID rp) &&
                                    (RolePermission_PermissionID rp =?
                                       Permission_ID perm)))
                           (role_permissions d)) <->
             In rp (role_permissions d) /\
             ~ (RolePermission_PermissionID rp = Permission_ID perm /\
                holds_role d userID (RolePermission_RoleID rp))).
  { intros rp. rewrite filter_In, negb_true_iff, andb_false_iff, N.eqb_neq.
    split; intros [Hin H]; (split; [assumption|]).
    - intros [H1 H2]. destruct H as [H|H]; [|contradiction].
      apply Hheld, id_in_spec in H2. congruence.
    - destruct (id_in held (RolePermission_RoleID rp)) eqn:Hid; [|now left].
      right. intros Hp. apply H. split; [assumption|].
      now apply Hheld, id_in_spec. }
  simpl. split; [exact Hrows|].
  assert (Hnot : ~ holds_permission
                   (mkDB (roles d) (permissions d)
                      (filter (fun rp =>
                                 negb (id_in held (RolePermission_RoleID rp) &&
                                       (RolePermission_PermissionID rp =?
                                          Permission_ID perm)))
                              (role_permissions d))
                      (user_roles d) (roles_id_seq d) (permissions_id_seq d)
                      (role_permissions_id_seq d) (user_roles_id_seq d))
                   userID (Permission_ID perm)).
  { intros [ur [Hur [Hu [rp [Hrp [Hl1 Hl2]]]]]]. simpl in Hur, Hrp.
    apply Hrows in Hrp as [_ Hrp]. apply Hrp. split; [assumption|].
    exists ur. split; [assumption|]. split; [assumption | now symmetry]. }
  repeat split; [exact Hnot|].
  rewrite CheckPermission_quiet_total.
  unfold permission_named in *. simpl. rewrite Hperm.
  match goal with
  | |- (match find ?f ?l with _ => _ end, _) = _ =>
      destruct (find f l) as [r|] eqn:Hf; [|reflexivity]
  end.
  exfalso. apply Hnot. apply held_link_found. intros Hnone.
  assert (Hc : Some r = None) by (rewrite <- Hf; exact Hnone).
  discriminate Hc.
Qed.

(** ** Deletion *)

Lemma NoDup_map_injective {A : Type} (key : A -> string) (l : list A) x y :
  NoDup (map key l) -> In x l -> In y l -> key x = key y -> x = y.
Proof.
  intros Hnd Hx Hy Hk.
  pose proof (NoDup_map_find key l x Hnd Hx) as Fx.
  pose proof (NoDup_map_find key l y Hnd Hy) as Fy.
  rewrite Hk in Fx. congruence.
Qed.

(** X10.  On a store that does not fail, [DeletePermission] on a permission
    that some [role_permissions] row references returns [ErrPermissionInUse],
    whether or not a user holds the role, and leaves the database
    unchanged. *)
Theorem DeletePermission_in_use d permName perm :
  permission_named d permName = Some perm ->
  (exists roleID, linked d roleID (Permission_ID perm)) ->
  DeletePermission permName (quiet d) = (Some ErrPermissionInUse, quiet d).
Proof.
  intros Hperm [roleID [rp [Hin [_ Hp]]]].
  rewrite DeletePermission_quiet, Hperm.
  destruct (find _ (role_permissions d)) eqn:Hf; [reflexivity|].
  apply find_none with (x := rp) in Hf; [|assumption].
  rewrite Hp, N.eqb_refl in Hf. discriminate.
Qed.

(** X11.  On a store that does not fail and whose names are unique,
    [DeletePermission] on a permission that no [role_permissions] row
    references returns no error and removes the permission row and nothing
    else: the other permissions and the three other tables are as before.
    Afterwards the name does not resolve and [GetPermissions] does not list
    it. *)
Theorem DeletePermission_unlinked d permName perm :
  unique_names d ->
  permission_named d permName = Some perm ->
  (forall roleID, ~ linked d roleID (Permission_ID perm)) ->
  exists d',
    DeletePermission permName (quiet d) = (None, quiet d') /\
    (forall p, In p (permissions d') <->
               In p (permissions d) /\ p <> perm) /\
    roles d' = roles d /\ role_permissions d' = role_permissions d /\
    user_roles d' = user_roles d /\
    permission_named d' permName = None /\
    (exists names, GetPermissions (quiet d') = ((names, None), quiet d') /\
                   ~ In permName names).
Proof.
  intros [_ Huniq] Hperm Hfree.
  destruct (permission_named_In _ _ Hperm) as [Hin Hname].
  assert (Hnone : find (fun rp => RolePermission_PermissionID rp =?
                                  Permission_ID perm)
                       (role_permissions d) = None).
  { apply find_absent. intros rp Hrp. apply N.eqb_neq. intros Hp.
    apply (Hfree (RolePermission_RoleID rp)). exists rp. now repeat split. }
  eexists. split; [now rewrite DeletePermission_quiet, Hperm, Hnone|].
  simpl.
  assert (Hsame : forall p, In p (permissions d) ->
                            (Permission_Name p = permName <-> p = perm)).
  { intros p Hp. split; [|now intros ->].
    intros Hn. apply (NoDup_map_injective Permission_Name (permissions d));
      try assumption. congruence. }
  assert (Hgone : forall p,
             In p (filter (fun p => negb (Permission_Name p =? permName)%string)
                          (permissions d)) <->
             In p (permissions d) /\ p <> perm).
  { intros p. rewrite filter_In, negb_true_iff, String.eqb_neq.
    split; intros [Hp H]; (split; [assumption|]); intros Heq; apply H;
      now apply (Hsame p Hp). }
  split; [exact Hgone|]. split; [reflexivity|]. split.
  { apply filter_keeps_all. intros rp Hrp. apply negb_true_iff.
    destruct (id_in _ (RolePermission_PermissionID rp)) eqn:Hid;
      [|reflexivity].
    exfalso. apply id_in_spec, in_map_iff in Hid as [p [Hid Hp]].
    apply filter_In in Hp as [Hp Hn]. apply String.eqb_eq in Hn.
    apply (Hsame p Hp) in Hn. subst p.
    apply (Hfree (RolePermission_RoleID rp)). exists rp. now repeat split. }
  split; [reflexivity|].
  assert (Habs : forall p,
             In p (filter (fun p => negb (Permission_Name p =? permName)%string)
                          (permissions d)) -> Permission_Name p <> permName).
  { intros p Hp. apply filter_In in Hp as [_ Hp].
    apply negb_true_iff in Hp. now apply String.eqb_neq. }
  split.
  - unfold permission_named. simpl. apply find_absent.
    intros p Hp. apply String.eqb_neq. now apply Habs.
  - eexists. split; [apply GetPermissions_quiet|]. simpl.
    intros Hn. apply in_map_iff in Hn as [p [Hn Hp]]. now apply (Habs p Hp).
Qed.

(** X12.  On a store that does not fail and whose names are unique,
    [DeleteRole] on a role that no [user_roles] row references removes the
    role row and the links of that role and nothing else: the other roles,
    the links of the other roles, the permissions and the assignments are as
    before.  Deleting the same name again returns [ErrRoleNotFound]. *)
Theorem DeleteRole_removes_only_the_role d roleName role :
  unique_names d ->
  role_named d roleName = Some role ->
  (forall userID, ~ holds_role d userID (Role_ID role)) ->
  exists d',
    DeleteRole roleName (quiet d) = (None, quiet d') /\
    (forall r, In r (roles d') <-> In r (roles d) /\ r <> role) /\
    (forall rp, In rp (role_permissions d') <->
                In rp (role_permissions d) /\
                RolePermission_RoleID rp <> Role_ID role) /\
    permissions d' = permissions d /\ user_roles d' = user_roles d /\
    DeleteRole roleName (quiet d') = (Some ErrRoleNotFound, quiet d').
Proof.
  intros [Huniq _] Hrole Hfree.
  destruct (role_named_In _ _ Hrole) as [Hin Hname].
  assert (Hnone : find (fun ur => UserRole_RoleID ur =? Role_ID role)
                       (user_roles d) = None).
  { apply find_absent. intros ur Hur. apply N.eqb_neq. intros Hr.
    apply (Hfree (UserRole_UserID ur)). exists ur. now repeat split. }
  eexists. split; [now rewrite DeleteRole_quiet, Hrole, Hnone|].
  simpl.
  assert (Hsame : forall r, In r (roles d) ->
                            (Role_Name r = roleName <-> r = role)).
  { intros r Hr. split; [|now intros ->].
    intros Hn. apply (NoDup_map_injective Role_Name (roles d));
      try assumption. congruence. }
  assert (Hgone : forall x,
             id_in (map Role_ID
                      (filter (fun r => (Role_Name r =? roleName)%string)
                              (roles d))) x = true <-> x = Role_ID role).
  { intros x. rewrite id_in_spec, in_map_iff. split.
    - intros [r [Hx Hr]]. apply filter_In in Hr as [Hr Hn].
      apply String.eqb_eq in Hn. apply (Hsame r Hr) in Hn. now subst.
    - intros ->. exists role. split; [reflexivity|]. apply filter_In.
      split; [assumption | now apply String.eqb_eq]. }
  assert (Hroles : forall r,
             In r (filter (fun r => negb (Role_Name r =? roleName)%string)
                          (roles d)) <->
             In r (roles d) /\ r <> role).
  { intros r. rewrite filter_In, negb_true_iff, String.eqb_neq.
    split; intros [Hr H]; (split; [assumption|]); intros Heq; apply H;
      now apply (Hsame r Hr). }
  split; [exact Hroles|]. split.
  { intros rp. rewrite filter_In, negb_true_iff.
    split; intros [Hrp H]; (split; [assumption|]).
    - intros Heq. apply Hgone in Heq. congruence.
    - destruct (id_in _ (RolePermission_RoleID rp)) eqn:Hid; [|reflexivity].
      apply Hgone in Hid. contradiction. }
  split; [reflexivity|]. split.
  { apply filter_keeps_all. intros ur Hur. apply negb_true_iff.
    destruct (id_in _ (UserRole_RoleID ur)) eqn:Hid; [|reflexivity].
    exfalso. apply Hgone in Hid.
    apply (Hfree (UserRole_UserID ur)). exists ur. now repeat split. }
  rewrite DeleteRole_quiet.
  replace (role_named _ roleName) with (@None Role); [reflexivity|].
  symmetry. unfold role_named. simpl. apply find_absent.
  intros r Hr. apply filter_In in Hr as [_ Hr].
  now apply negb_true_iff in Hr.
Qed.

(** ** Creation and the listings *)

Lemma find_name_snoc {A : Type} (key : A -> string) (l : list A) (x : A) :
  existsb (fun y => key y =? key x)%string l = false ->
  find (fun y => key y =? key x)%string (l ++ [x]) = Some x.
Proof.
  intros Hex. rewrite find_app_none_last.
  - simpl. now rewrite String.eqb_refl.
  - apply find_absent. intros y Hy.
    destruct (key y =? key x)%string eqn:Hk; [|reflexivity].
    rewrite <- Hex. symmetry. apply existsb_exists. now exists y.
Qed.

Lemma find_existsb {A : Type} (f : A -> bool) (l : list A) :
  existsb f l = true -> find f l <> None.
Proof.
  intros Hex Hf. apply existsb_exists in Hex as [x [Hx Hfx]].
  apply find_none with (x := x) in Hf; [congruence | assumption].
Qed.

(** X13.  On a store that does not fail, [CreateRole] returns no error from
    every state; afterwards the name resolves to a role row with that name
    and [GetRoles] lists it; every name that resolved before resolves to the
    same row, and the three other tables are unchanged.  The same holds of
    [CreatePermission], [getPermission] and [GetPermissions]. *)
Theorem Create_then_resolves d name :
  (exists d' role,
     CreateRole name (quiet d) = (None, quiet d') /\
     role_named d' name = Some role /\ Role_Name role = name /\
     (forall n r, role_named d n = Some r -> role_named d' n = Some r) /\
     (exists names, GetRoles (quiet d') = ((names, None), quiet d') /\
                    In name names) /\
     permissions d' = permissions d /\
     role_permissions d' = role_permissions d /\
     user_roles d' = user_roles d) /\
  (exists d' perm,
     CreatePermission name (quiet d) = (None, quiet d') /\
     permission_named d' name = Some perm /\ Permission_Name perm = name /\
     (forall n p, permission_named d n = Some p ->
                  permission_named d' n = Some p) /\
     (exists names, GetPermissions (quiet d') = ((names, None), quiet d') /\
                    In name names) /\
     roles d' = roles d /\
     role_permissions d' = role_permissions d /\
     user_roles d' = user_roles d).
Proof.
  split.
  - destruct (existsb (fun r => Role_Name r =? name)%string (roles d)) eqn:Hex.
    + destruct (role_named d name) as [role|] eqn:Hrole.
      2:{ exfalso. now apply (find_existsb _ _ Hex). }
      exists d, role. rewrite CreateRole_quiet, Hex.
      destruct (role_named_In _ _ Hrole) as [Hin Hn].
      repeat split; trivial.
      eexists. split; [apply GetRoles_quiet|]. simpl.
      rewrite <- Hn. now apply in_map.
    + eexists. exists (mkRole (roles_id_seq d) name "").
      rewrite CreateRole_quiet, Hex. split; [reflexivity|].
      unfold role_named. simpl. repeat split; trivial.
      * now apply (find_name_snoc Role_Name (roles d)
                     (mkRole (roles_id_seq d) name "")).
      * intros n r Hr. now apply find_app_found.
      * eexists. split; [apply GetRoles_quiet|]. simpl.
        rewrite map_app. simpl. apply in_or_app. right. now left.
  - destruct (existsb (fun p => Permission_Name p =? name)%string
                      (permissions d)) eqn:Hex.
    + destruct (permission_named d name) as [perm|] eqn:Hperm.
      2:{ exfalso. now apply (find_existsb _ _ Hex). }
      exists d, perm. rewrite CreatePermission_quiet, Hex.
      destruct (permission_named_In _ _ Hperm) as [Hin Hn].
      repeat split; trivial.
      eexists. split; [apply GetPermissions_quiet|]. simpl.
      rewrite <- Hn. now apply in_map.
    + eexists. exists (mkPermission (permissions_id_seq d) name "").
      rewrite CreatePermission_quiet, Hex. split; [reflexivity|].
      unfold permission_named. simpl. repeat split; trivial.
      * now apply (find_name_snoc Permission_Name (permissions d)
                     (mkPermission (permissions_id_seq d) name "")).
      * intros n p Hp. now apply find_app_found.
      * eexists. split; [apply GetPermissions_quiet|]. simpl.
        rewrite map_app. simpl. apply in_or_app. right. now left.
Qed.

Lemma find_by_name_present {A : Type} (key : A -> string) (l : list A) n :
  In n (map key l) <-> find (fun x => key x =? n)%string l <> None.
Proof.
  split.
  - intros Hin. apply find_existsb. now apply existsb_name.
  - destruct (find _ l) as [x|] eqn:Hf; [|congruence].
    intros _. apply find_some in Hf as [Hx Hk].
    apply String.eqb_eq in Hk. rewrite <- Hk. now apply in_map.
Qed.

(** X14.  On a store that does not fail, [GetRoles] returns no error and one
    name per role row, in storage order; a name is listed exactly when
    [getRole] resolves it, and no name is listed twice when names are
    unique.  The same holds of [GetPermissions] and [getPermission]. *)
Theorem listings_agree_with_lookups d :
  (exists names,
     GetRoles (quiet d) = ((names, None), quiet d) /\
     List.length names = List.length (roles d) /\
     (forall n, In n names <->
                exists role, getRole n (quiet d) = (Ok role, quiet d)) /\
     (unique_names d -> NoDup names)) /\
  (exists names,
     GetPermissions (quiet d) = ((names, None), quiet d) /\
     List.length names = List.length (permissions d) /\
     (forall n, In n names <->
                exists perm, getPermission n (quiet d) = (Ok perm, quiet d)) /\
     (unique_names d -> NoDup names)).
Proof.
  split; eexists.
  - split; [apply GetRoles_quiet|]. split; [apply length_map|]. split.
    + intros n. rewrite getRole_quiet.
      rewrite (find_by_name_present Role_Name). fold (role_named d n).
      destruct (role_named d n) as [r|].
      * split; [intros _; now exists r | discriminate].
      * split; [congruence | intros [r Hr]; discriminate Hr].
    + now intros [H _].
  - split; [apply GetPermissions_quiet|]. split; [apply length_map|]. split.
    + intros n. rewrite getPermission_quiet.
      rewrite (find_by_name_present Permission_Name).
      fold (permission_named d n).
      destruct (permission_named d n) as [p|].
      * split; [intros _; now exists p | discriminate].
      * split; [congruence | intros [p Hp]; discriminate Hp].
    + now intros [_ H].
Qed.

Lemma NoDup_ids_find {A : Type} (key : A -> N) (l : list A) (x : A) :
  NoDup (map key l) -> In x l ->
  find (fun y => key y =? key x) l = Some x.
Proof.
  induction l as [|a l IH]; simpl; intros Hnd Hin; [contradiction|].
  inversion Hnd as [|? ? Hni Hnd']; subst.
  destruct Hin as [->|Hin].
  - now rewrite N.eqb_refl.
  - destruct (N.eqb_spec (key a) (key x)) as [Heq|Hne].
    + exfalso. apply Hni. rewrite Heq. now apply in_map.
    + now apply IH.
Qed.

(** X15.  On a store that does not fail, whose names are unique and whose
    role ids are distinct, [GetUserRoles] returns no error, and lists a name
    exactly when [CheckRole] returns [true] for the user and that name. *)
Theorem GetUserRoles_agrees_with_CheckRole d userID :
  unique_names d ->
  NoDup (map Role_ID (roles d)) ->
  exists names,
    GetUserRoles userID (quiet d) = ((names, None), quiet d) /\
    (forall n, In n names <->
               CheckRole userID n (quiet d) = ((true, None), quiet d)).
Proof.
  intros Huniq Hids. eexists. split; [apply GetUserRoles_quiet|].
  intros n. unfold names_of. rewrite in_flat_map, CheckRole_quiet. split.
  - intros [ur [Hur Hn]]. apply filter_In in Hur as [Hur Hu].
    apply N.eqb_eq in Hu.
    destruct (find _ (roles d)) as [r|] eqn:Hf; [|contradiction].
    destruct Hn as [<-|[]]. apply find_some in Hf as [Hr Hid].
    apply N.eqb_eq in Hid.
    rewrite (@role_named_unique d r Huniq Hr).
    pose proof (holds_role_find d userID (Role_ID r)) as Hh.
    destruct (find _ (user_roles d)); [reflexivity|].
    exfalso. apply (proj2 Hh); [|reflexivity].
    exists ur. now repeat split.
  - destruct (role_named d n) as [r|] eqn:Hrole; [|discriminate].
    destruct (role_named_In _ _ Hrole) as [Hr Hn].
    destruct (find _ (user_roles d)) as [ur|] eqn:Hf; [|discriminate].
    intros _. apply find_some in Hf as [Hur Hm].
    apply andb_true_iff in Hm as [Hu Hid]. apply N.eqb_eq in Hid.
    exists ur. split; [apply filter_In; now split|].
    rewrite Hid, (NoDup_ids_find Role_ID (roles d) r Hids Hr).
    left. assumption.
Qed.

(** ** Errors and partial effects, whatever the driver does *)

Lemma all_or_nothing_ret e : all_or_nothing (ret e).
Proof. now intros w. Qed.

Lemma all_or_nothing_read {A : Type} (m : M A) (k : A -> M (option error)) :
  read_only m -> (forall a, all_or_nothing (k a)) ->
  all_or_nothing (bind m k).
Proof.
  intros Hm Hk w. unfold bind. specialize (Hm w).
  destruct (m w) as [a w1]. simpl in Hm. intros He.
  rewrite (Hk a w1 He). exact Hm.
Qed.

Lemma all_or_nothing_statement (stmt : DB -> option error * DB) :
  (forall d, fst (stmt d) <> None -> snd (stmt d) = d) ->
  all_or_nothing (round_trip (fun e => Some e) stmt).
Proof.
  intros H [d fs]. unfold round_trip. simpl.
  destruct fs as [|[msg|] rest]; simpl; trivial;
    specialize (H d); destruct (stmt d); simpl in *; assumption.
Qed.

(** [if err != nil { return err }; return nil] after a statement. *)
Lemma all_or_nothing_rethrow (m : M (option error)) :
  all_or_nothing m ->
  all_or_nothing (bind m (fun err => match err with
                                     | Some e => ret (Some e)
                                     | None => ret None
                                     end)).
Proof.
  intros Hm w. unfold bind. specialize (Hm w).
  destruct (m w) as [[e|] w1]; simpl in *; [|congruence].
  intros _. apply Hm. discriminate.
Qed.

(** [return nil] after a statement whose error is dropped. *)
Lemma all_or_nothing_discard (m : M (option error)) :
  all_or_nothing (bind m (fun _ => ret None)).
Proof.
  intros w. unfold bind. destruct (m w) as [e w1]. simpl. congruence.
Qed.

Lemma all_or_nothing_Insert_Role name : all_or_nothing (Insert_Role name).
Proof.
  apply all_or_nothing_statement. intros d.
  destruct (existsb _ (roles d)); simpl; congruence.
Qed.

Lemma all_or_nothing_Insert_Permission name :
  all_or_nothing (Insert_Permission name).
Proof.
  apply all_or_nothing_statement. intros d.
  destruct (existsb _ (permissions d)); simpl; congruence.
Qed.

Lemma all_or_nothing_Insert_UserRole userID roleID :
  all_or_nothing (Insert_UserRole userID roleID).
Proof. apply all_or_nothing_statement. intros d. simpl. congruence. Qed.

Lemma all_or_nothing_Delete_Role where_ : all_or_nothing (Delete_Role where_).
Proof. apply all_or_nothing_statement. intros d. simpl. congruence. Qed.

Lemma all_or_nothing_Delete_Permission where_ :
  all_or_nothing (Delete_Permission where_).
Proof. apply all_or_nothing_statement. intros d. simpl. congruence. Qed.

Lemma all_or_nothing_Delete_UserRole where_ :
  all_or_nothing (Delete_UserRole where_).
Proof. apply all_or_nothing_statement. intros d. simpl. congruence. Qed.

Create HintDb atom.
#[local] Hint Resolve all_or_nothing_Insert_Role
  all_or_nothing_Insert_Permission all_or_nothing_Insert_UserRole
  all_or_nothing_Delete_Role all_or_nothing_Delete_Permission
  all_or_nothing_Delete_UserRole : atom.

(** Follows the program text down to its single write. *)
Ltac single_write :=
  repeat first
    [ apply all_or_nothing_ret
    | apply all_or_nothing_discard
    | apply all_or_nothing_rethrow
    | solve [ auto with atom ]
    | apply all_or_nothing_read; [ solve [ auto with frame ] | intros ? ]
    | match goal with
      | |- all_or_nothing (match ?x with _ => _ end) => destruct x
      | |- all_or_nothing (if ?b then _ else _) => destruct b
      end ].

(** X16.  Whatever the driver does, each operation that sends a single write
    has changed nothing when it returns an error: [CreateRole],
    [CreatePermission], [AssignRole], [RevokeRole], [RevokeRolePermission],
    [DeleteRole] and [DeletePermission]. *)
Theorem single_write_operations_all_or_nothing :
  (forall n, all_or_nothing (CreateRole n)) /\
  (forall n, all_or_nothing (CreatePermission n)) /\
  (forall u r, all_or_nothing (AssignRole u r)) /\
  (forall u r, all_or_nothing (RevokeRole u r)) /\
  (forall r p, all_or_nothing (RevokeRolePermission r p)) /\
  (forall r, all_or_nothing (DeleteRole r)) /\
  (forall p, all_or_nothing (DeletePermission p)).
Proof.
  repeat match goal with |- _ /\ _ => split end; intros.
  - unfold CreateRole. single_write.
  - unfold CreatePermission. single_write.
  - unfold AssignRole. single_write.
  - unfold RevokeRole. single_write.
  - unfold RevokeRolePermission. single_write.
  - unfold DeleteRole. single_write.
  - unfold DeletePermission. single_write.
Qed.

(** The second loop of [AssignPermissions] returns the error of a failed
    insert and no other. *)
Lemma insert_loop_errors roleID perms :
  forall w e,
    fst (AssignPermissions_insert roleID perms w) = Some e ->
    exists msg, e = driver_error msg.
Proof.
  induction perms as [|perm rest IH]; intros w e; simpl; [discriminate|].
  unfold bind.
  destruct (getRolePermission roleID (Permission_ID perm) w) as [[rp|e0] w1].
  - apply IH.
  - destruct w1 as [d1 [|[msg|] fs]]; simpl; try apply IH.
    intros [= <-]. now exists msg.
Qed.

(** X17.  Whatever the driver does, when [AssignPermissions] returns
    [ErrRoleNotFound] or [ErrPermissionNotFound] it has changed nothing:
    every name is looked up before the first link is inserted. *)
Theorem AssignPermissions_not_found_changes_nothing roleName permNames w :
  fst (AssignPermissions roleName permNames w) = Some ErrRoleNotFound \/
  fst (AssignPermissions roleName permNames w) = Some ErrPermissionNotFound ->
  db (snd (AssignPermissions roleName permNames w)) = db w.
Proof.
  unfold AssignPermissions, bind.
  pose proof (read_only_getRole roleName w) as Hg.
  destruct (getRole roleName w) as [[role|e] w1]; simpl in Hg;
    [|intros _; exact Hg].
  pose proof (read_only_resolve_loop permNames [] w1) as Hr.
  destruct (AssignPermissions_resolve permNames [] w1) as [[perms|e] w2];
    simpl in Hr; [|intros _; simpl; congruence].
  intros [H|H]; apply insert_loop_errors in H as [msg H]; discriminate H.
Qed.

(** A failed insert in the middle of the second loop leaves the links that
    were inserted before it. *)
Remark AssignPermissions_partial_effect :
  AssignPermissions "role-1" ["perm-1"; "perm-2"]
    (mkWorld created_state [None; None; None; None; None; None; Some "reset"]) =
  (Some (driver_error "reset"),
   quiet (with_links created_state [mkRolePermission 1 1 1])).
Proof. reflexivity. Qed.

(** ** What every reachable state satisfies *)

Lemma keys_below_snoc {R : Type} (key : R -> N) (rows : list R) seq x :
  keys_below key rows seq -> key x = seq ->
  keys_below key (rows ++ [x]) (seq + 1).
Proof.
  intros [Hnd Hlt] Hx. split.
  - rewrite map_app. simpl.
    assert (Hni : ~ In (key x) (map key rows)).
    { intros Hin. apply in_map_iff in Hin as [y [Hy Hin]].
      specialize (Hlt y Hin). lia. }
    clear Hlt Hx. induction (map key rows) as [|a l IH]; simpl.
    + constructor; [now intros [] | constructor].
    + inversion Hnd as [|? ? Ha Hl]; subst. constructor.
      * rewrite in_app_iff. intros [H|[H|[]]]; [contradiction|].
        apply Hni. now left.
      * apply IH; [assumption|]. intros H. apply Hni. now right.
  - intros r Hr. apply in_app_or in Hr as [Hr|[<-|[]]].
    + specialize (Hlt r Hr). lia.
    + lia.
Qed.

Lemma keys_below_filter {R : Type} (key : R -> N) (f : R -> bool) rows seq :
  keys_below key rows seq -> keys_below key (filter f rows) seq.
Proof.
  intros [Hnd Hlt]. split.
  - clear Hlt. induction rows as [|a l IH]; simpl; [constructor|].
    inversion Hnd as [|? ? Hni Hnd']; subst.
    destruct (f a); simpl; [|now apply IH].
    constructor; [|now apply IH].
    intros Hin. apply Hni. apply in_map_iff in Hin as [x [Hx Hin]].
    apply filter_In in Hin as [Hin _]. rewrite <- Hx. now apply in_map.
  - intros r Hr. apply filter_In in Hr as [Hr _]. now apply Hlt.
Qed.

Lemma primary_keys_empty : primary_keys empty_DB.
Proof.
  repeat split; try constructor; intros r [].
Qed.

Lemma primary_keys_Insert_Role name :
  preserves primary_keys (Insert_Role name).
Proof.
  apply preserves_round_trip. intros d [H1 [H2 [H3 H4]]].
  destruct (existsb _ (roles d)); simpl;
    [exact (conj H1 (conj H2 (conj H3 H4)))|].
  split; [|split; [|split]]; simpl; trivial; now apply keys_below_snoc.
Qed.

Lemma primary_keys_Insert_Permission name :
  preserves primary_keys (Insert_Permission name).
Proof.
  apply preserves_round_trip. intros d [H1 [H2 [H3 H4]]].
  destruct (existsb _ (permissions d)); simpl;
    [exact (conj H1 (conj H2 (conj H3 H4)))|].
  split; [|split; [|split]]; simpl; trivial; now apply keys_below_snoc.
Qed.

Lemma primary_keys_Insert_RolePermission roleID permID :
  preserves primary_keys (Insert_RolePermission roleID permID).
Proof.
  apply preserves_round_trip. intros d [H1 [H2 [H3 H4]]].
  split; [|split; [|split]]; simpl; trivial; now apply keys_below_snoc.
Qed.

Lemma primary_keys_Insert_UserRole userID roleID :
  preserves primary_keys (Insert_UserRole userID roleID).
Proof.
  apply preserves_round_trip. intros d [H1 [H2 [H3 H4]]].
  split; [|split; [|split]]; simpl; trivial; now apply keys_below_snoc.
Qed.

Lemma primary_keys_Delete_Role where_ :
  preserves primary_keys (Delete_Role where_).
Proof.
  apply preserves_round_trip. intros d [H1 [H2 [H3 H4]]].
  split; [|split; [|split]]; simpl; trivial; now apply keys_below_filter.
Qed.

Lemma primary_keys_Delete_Permission where_ :
  preserves primary_keys (Delete_Permission where_).
Proof.
  apply preserves_round_trip. intros d [H1 [H2 [H3 H4]]].
  split; [|split; [|split]]; simpl; trivial; now apply keys_below_filter.
Qed.

Lemma primary_keys_Delete_RolePermission where_ :
  preserves primary_keys (Delete_RolePermission where_).
Proof.
  apply preserves_round_trip. intros d [H1 [H2 [H3 H4]]].
  split; [|split; [|split]]; simpl; trivial; now apply keys_below_filter.
Qed.

Lemma primary_keys_Delete_UserRole where_ :
  preserves primary_keys (Delete_UserRole where_).
Proof.
  apply preserves_round_trip. intros d [H1 [H2 [H3 H4]]].
  split; [|split; [|split]]; simpl; trivial; now apply keys_below_filter.
Qed.

#[local] Hint Resolve primary_keys_Insert_Role primary_keys_Insert_Permission
  primary_keys_Insert_RolePermission primary_keys_Insert_UserRole
  primary_keys_Delete_Role primary_keys_Delete_Permission
  primary_keys_Delete_RolePermission primary_keys_Delete_UserRole : inv.

Lemma read_only_operations :
  (forall u r, read_only (CheckRole u r)) /\
  (forall u p, read_only (CheckPermission u p)) /\
  (forall r p, read_only (CheckRolePermission r p)) /\
  read_only GetRoles /\
  (forall u, read_only (GetUserRoles u)) /\
  read_only GetPermissions.
Proof.
  repeat split; intros.
  - unfold CheckRole. frame.
  - unfold CheckPermission. frame.
  - unfold CheckRolePermission. frame.
  - unfold GetRoles. frame.
  - unfold GetUserRoles. frame.
  - unfold GetPermissions. frame.
Qed.

Lemma perform_keeps (I : DB -> Prop) :
  (forall n, preserves I (Insert_Role n)) ->
  (forall n, preserves I (Insert_Permission n)) ->
  (forall r p, preserves I (Insert_RolePermission r p)) ->
  (forall u r, preserves I (Insert_UserRole u r)) ->
  (forall f, preserves I (Delete_Role f)) ->
  (forall f, preserves I (Delete_Permission f)) ->
  (forall f, preserves I (Delete_RolePermission f)) ->
  (forall f, preserves I (Delete_UserRole f)) ->
  forall c, preserves I (perform c).
Proof.
  intros H1 H2 H3 H4 H5 H6 H7 H8.
  assert (Hins : forall roleID perms,
             preserves I (AssignPermissions_insert roleID perms)).
  { intros roleID perms. induction perms as [|perm rest IH]; simpl.
    - apply preserves_ret.
    - apply preserves_bind;
        [apply preserves_read_only, read_only_getRolePermission|].
      intros [rp|e]; [exact IH|].
      apply preserves_bind; [apply H3|].
      intros [e'|]; [apply preserves_ret | exact IH]. }
  assert (Hrev : forall userRoles permID,
             preserves I (RevokePermission_loop userRoles permID)).
  { intros userRoles permID. induction userRoles as [|r rest IH]; simpl.
    - apply preserves_ret.
    - apply preserves_bind; [apply H7|].
      intros [e'|]; [apply preserves_ret | exact IH]. }
  destruct read_only_operations as [R1 [R2 [R3 [R4 [R5 R6]]]]].
  intros c. destruct c; simpl;
    (apply preserves_bind; [|intros ?; apply preserves_ret]);
    try solve [apply preserves_read_only; auto].
  - unfold CreateRole.
    apply preserves_bind; [apply preserves_read_only, read_only_Exists|].
    intros [ex [e|]]; [apply preserves_ret|].
    destruct (negb ex); [|apply preserves_ret].
    apply preserves_bind; [apply H1|]. intros [e|]; apply preserves_ret.
  - unfold CreatePermission.
    apply preserves_bind; [apply preserves_read_only, read_only_Exists|].
    intros [ex [e|]]; [apply preserves_ret|].
    destruct (negb ex); [|apply preserves_ret].
    apply preserves_bind; [apply H2|]. intros [e|]; apply preserves_ret.
  - unfold AssignPermissions.
    apply preserves_bind; [apply preserves_read_only, read_only_getRole|].
    intros [role|e]; [|apply preserves_ret].
    apply preserves_bind;
      [apply preserves_read_only, read_only_resolve_loop|].
    intros [perms|e]; [apply Hins | apply preserves_ret].
  - unfold AssignRole.
    apply preserves_bind; [apply preserves_read_only, read_only_getRole|].
    intros [role|e]; [|apply preserves_ret].
    apply preserves_bind; [apply preserves_read_only, read_only_getUserRole|].
    intros [ur|e]; [apply preserves_ret | apply H4].
  - unfold RevokeRole.
    apply preserves_bind; [apply preserves_read_only, read_only_getRole|].
    intros [role|e]; [apply H8 | apply preserves_ret].
  - unfold RevokePermission.
    apply preserves_bind; [apply preserves_read_only, read_only_Scan_rows|].
    intros [urs [e|]].
    + destruct (errors_Is e sql_ErrNoRows); apply preserves_ret.
    + apply preserves_bind;
        [apply preserves_read_only, read_only_getPermission|].
      intros [perm|e]; [apply Hrev | apply preserves_ret].
  - unfold RevokeRolePermission.
    apply preserves_bind; [apply preserves_read_only, read_only_getRole|].
    intros [role|e]; [|apply preserves_ret].
    apply preserves_bind;
      [apply preserves_read_only, read_only_getPermission|].
    intros [perm|e]; [|apply preserves_ret].
    apply preserves_bind; [apply H7 | intros ?; apply preserves_ret].
  - unfold DeleteRole.
    apply preserves_bind; [apply preserves_read_only, read_only_getRole|].
    intros [role|e]; [|apply preserves_ret].
    apply preserves_bind; [apply preserves_read_only, read_only_Scan_row|].
    intros [ur [e|]]; [|apply preserves_ret].
    apply preserves_bind;
      [apply preserves_read_only, read_only_Select_Exec|].
    intros [e'|]; [apply preserves_ret|].
    apply preserves_bind; [apply H5|]. intros [e'|]; apply preserves_ret.
  - unfold DeletePermission.
    apply preserves_bind;
      [apply preserves_read_only, read_only_getPermission|].
    intros [perm|e]; [|apply preserves_ret].
    apply preserves_bind; [apply preserves_read_only, read_only_Scan_row|].
    intros [rp [e|]]; [|apply preserves_ret].
    apply preserves_bind; [apply H6|]. intros [e'|]; apply preserves_ret.
Qed.

Lemma perform_all_keeps (I : DB -> Prop) :
  (forall c, preserves I (perform c)) ->
  forall cs, preserves I (perform_all cs).
Proof.
  intros H cs. induction cs as [|c rest IH]; simpl.
  - apply preserves_ret.
  - apply preserves_bind; [apply H | intros ?; exact IH].
Qed.

(** X18.  Whatever the driver does and whatever the calls and their
    arguments are, a client that starts from a database whose role and
    permission names are unique and whose primary keys are distinct and
    below their sequences ends in such a database; the empty database is
    one.  So names stay unique and ids are never given twice in any state
    the package can reach. *)
Theorem names_and_keys_kept (cs : list call) :
  preserves (fun d => unique_names d /\ primary_keys d) (perform_all cs) /\
  (forall fs,
     unique_names (db (snd (perform_all cs (mkWorld empty_DB fs)))) /\
     primary_keys (db (snd (perform_all cs (mkWorld empty_DB fs))))).
Proof.
  assert (Hu : preserves unique_names (perform_all cs)).
  { apply perform_all_keeps. apply perform_keeps; auto with inv. }
  assert (Hk : preserves primary_keys (perform_all cs)).
  { apply perform_all_keeps. apply perform_keeps; auto with inv. }
  split.
  - intros w [H1 H2]. split; [now apply Hu | now apply Hk].
  - intros fs. split.
    + apply Hu. exact unique_names_empty.
    + apply Hk. exact primary_keys_empty.
Qed.

Lemma ref_integrity_empty : ref_integrity empty_DB.
Proof. split; intros x []. Qed.

(** Integrity survives when roles and permissions are kept and every new
    link or assignment row names a stored row. *)
Lemma ref_integrity_grow d d' :
  ref_integrity d ->
  (forall x, In x (map Role_ID (roles d)) -> In x (map Role_ID (roles d'))) ->
  (forall x, In x (map Permission_ID (permissions d)) ->
             In x (map Permission_ID (permissions d'))) ->
  (forall rp, In rp (role_permissions d') ->
     In rp (role_permissions d) \/
     (In (RolePermission_RoleID rp) (map Role_ID (roles d')) /\
      In (RolePermission_PermissionID rp)
         (map Permission_ID (permissions d')))) ->
  (forall ur, In ur (user_roles d') ->
     In ur (user_roles d) \/
     In (UserRole_RoleID ur) (map Role_ID (roles d'))) ->
  ref_integrity d'.
Proof.
  intros [Hrp Hur] Hr Hp Hrp' Hur'. split.
  - intros rp Hin. destruct (Hrp' rp Hin) as [Hold|Hnew]; [|exact Hnew].
    destruct (Hrp rp Hold) as [H1 H2]. split; [now apply Hr | now apply Hp].
  - intros ur Hin. destruct (Hur' ur Hin) as [Hold|Hnew]; [|exact Hnew].
    apply Hr. now apply Hur.
Qed.

(** A row that is referenced and whose id is not among the deleted ones is
    still stored after the delete. *)
Lemma cascade_kept {R : Type} (id : R -> N) (where_ : R -> bool) rows x :
  In x (map id rows) ->
  id_in (map id (filter where_ rows)) x = false ->
  In x (map id (filter (fun r => negb (where_ r)) rows)).
Proof.
  intros Hin Hgone. apply in_map_iff in Hin as [r [Hx Hr]].
  apply in_map_iff. exists r. split; [assumption|].
  apply filter_In. split; [assumption|].
  destruct (where_ r) eqn:Hw; [|reflexivity].
  exfalso. assert (Ht : id_in (map id (filter where_ rows)) x = true).
  { apply id_in_spec. rewrite <- Hx. apply in_map. apply filter_In.
    now split. }
  congruence.
Qed.

Lemma resolved_In d permNames :
  forall perms p,
    resolved d permNames = Some perms -> In p perms -> In p (permissions d).
Proof.
  induction permNames as [|n rest IH]; intros perms p; simpl.
  - intros [= <-] [].
  - destruct (permission_named d n) as [q|] eqn:Hq; [|discriminate].
    destruct (resolved d rest) as [qs|]; [|discriminate].
    intros [= <-] [<-|Hin].
    + now apply permission_named_In in Hq.
    + now apply (IH qs).
Qed.

Lemma perform_keeps_references (c : call) d :
  ref_integrity d ->
  exists d', perform c (quiet d) = (tt, quiet d') /\ ref_integrity d'.
Proof.
  intros Hri. destruct c; simpl; unfold bind.
  - rewrite CreateRole_quiet. eexists. split; [reflexivity|].
    destruct (existsb _ (roles d)); [exact Hri|].
    apply (@ref_integrity_grow d _ Hri); simpl; auto.
    intros x Hx. rewrite map_app. apply in_or_app. now left.
  - rewrite CreatePermission_quiet. eexists. split; [reflexivity|].
    destruct (existsb _ (permissions d)); [exact Hri|].
    apply (@ref_integrity_grow d _ Hri); simpl; auto.
    intros x Hx. rewrite map_app. apply in_or_app. now left.
  - rewrite AssignPermissions_quiet.
    destruct (role_named d roleName) as [role|] eqn:Hrole;
      [|now exists d].
    destruct (resolved d permNames) as [perms|] eqn:Hres;
      [|now exists d].
    eexists. split; [reflexivity|].
    apply (@ref_integrity_grow d _ Hri); simpl; auto.
    intros rp Hrp. apply in_app_or in Hrp as [Hrp|Hrp]; [now left|].
    right. apply links_to_add_new in Hrp as [Hr [[p [Hp Hid]] _]].
    split.
    + rewrite Hr. apply in_map. now apply role_named_In in Hrole.
    + rewrite Hid. apply in_map. now apply (@resolved_In d permNames perms p Hres).
  - rewrite AssignRole_quiet.
    destruct (role_named d roleName) as [role|] eqn:Hrole;
      [|now exists d].
    destruct (find _ (user_roles d)); [now exists d|].
    eexists. split; [reflexivity|].
    apply (@ref_integrity_grow d _ Hri); simpl; auto.
    intros ur Hur. apply in_app_or in Hur as [Hur|[<-|[]]]; [now left|].
    right. simpl. apply in_map. now apply role_named_In in Hrole.
  - rewrite CheckRole_quiet. now exists d.
  - rewrite CheckPermission_quiet_total. now exists d.
  - rewrite CheckRolePermission_quiet. now exists d.
  - rewrite RevokeRole_quiet.
    destruct (role_named d roleName) as [role|]; [|now exists d].
    eexists. split; [reflexivity|].
    apply (@ref_integrity_grow d _ Hri); simpl; auto.
    intros ur Hur. left. now apply filter_In in Hur.
  - rewrite RevokePermission_quiet.
    destruct (permission_named d permName) as [perm|]; [|now exists d].
    eexists. split; [reflexivity|].
    apply (@ref_integrity_grow d _ Hri); simpl; auto.
    intros rp Hrp. left. now apply filter_In in Hrp.
  - rewrite RevokeRolePermission_quiet_total.
    destruct (role_named d roleName) as [role|]; [|now exists d].
    destruct (permission_named d permName) as [perm|]; [|now exists d].
    eexists. split; [reflexivity|].
    apply (@ref_integrity_grow d _ Hri); simpl; auto.
    intros rp Hrp. left. now apply filter_In in Hrp.
  - rewrite GetRoles_quiet. now exists d.
  - rewrite GetUserRoles_quiet. now exists d.
  - rewrite GetPermissions_quiet. now exists d.
  - rewrite DeleteRole_quiet.
    destruct (role_named d roleName) as [role|]; [|now exists d].
    destruct (find _ (user_roles d)); [now exists d|].
    eexists. split; [reflexivity|].
    destruct Hri as [Hrp Hur]. split; simpl.
    + intros rp Hin. apply filter_In in Hin as [Hin Hkeep].
      apply negb_true_iff in Hkeep. destruct (Hrp rp Hin) as [H1 H2].
      split; [now apply cascade_kept | assumption].
    + intros ur Hin. apply filter_In in Hin as [Hin Hkeep].
      apply negb_true_iff in Hkeep. apply cascade_kept; [|assumption].
      now apply Hur.
  - rewrite DeletePermission_quiet.
    destruct (permission_named d permName) as [perm|]; [|now exists d].
    destruct (find _ (role_permissions d)); [now exists d|].
    eexists. split; [reflexivity|].
    destruct Hri as [Hrp Hur]. split; simpl.
    + intros rp Hin. apply filter_In in Hin as [Hin Hkeep].
      apply negb_true_iff in Hkeep. destruct (Hrp rp Hin) as [H1 H2].
      split; [assumption | now apply cascade_kept].
    + exact Hur.
Qed.

(** X19.  On a store that does not fail, whatever the calls and their
    arguments are, a client that starts from a database in which every link
    row names a stored role and a stored permission and every assignment row
    names a stored role ends in such a database, and the store has not
    failed; the empty database is one.  No operation leaves a dangling
    reference. *)
Theorem references_kept (cs : list call) d :
  ref_integrity d ->
  exists d', perform_all cs (quiet d) = (tt, quiet d') /\ ref_integrity d'.
Proof.
  revert d. induction cs as [|c rest IH]; intros d Hri; simpl.
  - now exists d.
  - unfold bind.
    destruct (@perform_keeps_references c d Hri) as [d1 [Hrun H1]].
    rewrite Hrun. now apply IH.
Qed.

(** ** More on [RevokePermission] and [GetUserRoles] *)

(** X20.  On a store that does not fail, [RevokePermission] for one user
    takes the permission from the roles, not from the user: afterwards
    [CheckPermission] returns [false] for every other user all of whose
    roles linked to the permission are roles the first user holds. *)
Theorem RevokePermission_reaches_other_users d userID other permName perm :
  permission_named d permName = Some perm ->
  (forall roleID, holds_role d other roleID ->
                  linked d roleID (Permission_ID perm) ->
                  holds_role d userID roleID) ->
  exists d',
    RevokePermission userID permName (quiet d) = (None, quiet d') /\
    CheckPermission other permName (quiet d') = ((false, None), quiet d').
Proof.
  intros Hperm Hshared. eexists.
  split; [now rewrite RevokePermission_quiet, Hperm|].
  rewrite CheckPermission_quiet_total.
  unfold permission_named in *. simpl. rewrite Hperm.
  rewrite find_absent; [reflexivity|].
  intros rp Hrp. apply filter_In in Hrp as [Hrp Hkeep].
  apply negb_true_iff in Hkeep.
  destruct (RolePermission_PermissionID rp =? Permission_ID perm) eqn:Hp;
    [|apply andb_false_r].
  rewrite andb_true_r in *. apply N.eqb_eq in Hp.
  destruct (id_in (map UserRole_RoleID
                     (filter (fun ur => UserRole_UserID ur =? other)
                             (user_roles d)))
                  (RolePermission_RoleID rp)) eqn:Hother; [|reflexivity].
  exfalso.
  apply id_in_spec, in_map_iff in Hother as [ur [Hid Hur]].
  apply filter_In in Hur as [Hur Hu]. apply N.eqb_eq in Hu.
  assert (Hheld : holds_role d userID (RolePermission_RoleID rp)).
  { apply Hshared.
    - exists ur. now repeat split.
    - exists rp. now repeat split. }
  destruct Hheld as [ur' [Hur' [Hu' Hid']]].
  assert (Ht : id_in (map UserRole_RoleID
                        (filter (fun ur => UserRole_UserID ur =? userID)
                                (user_roles d)))
                     (RolePermission_RoleID rp) = true).
  { apply id_in_spec. rewrite <- Hid'. apply in_map. apply filter_In.
    split; [assumption | now apply N.eqb_eq]. }
  congruence.
Qed.

Lemma GetUserRoles_loop_length userRoles :
  forall result_ w,
    (List.length (fst (GetUserRoles_loop userRoles result_ w)) <=
     List.length result_ + List.length userRoles)%nat.
Proof.
  induction userRoles as [|r rest IH]; intros result_ w; simpl; [lia|].
  unfold bind.
  destruct (Scan_row roles (fun x => Role_ID x =? UserRole_RoleID r)
              Role_zero w) as [[role [e|]] w1].
  - specialize (IH result_ w1). lia.
  - specialize (IH (result_ ++ [Role_Name role])%list w1).
    rewrite length_app in IH. simpl in IH. lia.
Qed.

(** X21.  Whatever the driver does, [GetUserRoles] returns an error only
    when its first select fails, and then the error of the driver with no
    name; otherwise it returns no error and at most one name per
    [user_roles] row of the user: a role whose lookup fails or finds no row
    is left out without a report. *)
Theorem GetUserRoles_reports_only_first_failure userID w :
  match faults w with
  | Some msg :: _ =>
      fst (GetUserRoles userID w) = ([], Some (driver_error msg))
  | _ =>
      snd (fst (GetUserRoles userID w)) = None /\
      (List.length (fst (fst (GetUserRoles userID w))) <=
       List.length (filter (fun ur => UserRole_UserID ur =? userID)
                           (user_roles (db w))))%nat
  end.
Proof.
  destruct w as [d [|[msg|] fs]]; simpl; [|reflexivity|];
    unfold GetUserRoles, bind, Scan_rows, round_trip; simpl.
  - match goal with
    | |- context [GetUserRoles_loop ?l ?a ?w0] =>
        pose proof (GetUserRoles_loop_length l a w0) as Hlen;
        destruct (GetUserRoles_loop l a w0) as [names w1]
    end.
    simpl in *. split; [reflexivity | exact Hlen].
  - match goal with
    | |- context [GetUserRoles_loop ?l ?a ?w0] =>
        pose proof (GetUserRoles_loop_length l a w0) as Hlen;
        destruct (GetUserRoles_loop l a w0) as [names w1]
    end.
    simpl in *. split; [reflexivity | exact Hlen].
Qed.

(** ** The further statements at the states of the demo *)

Lemma demo_names_unique :
  unique_names created_state /\ unique_names linked_state /\
  unique_names demo_state.
Proof.
  repeat split; simpl; repeat constructor; simpl; intuition discriminate.
Qed.

Lemma unknown_role_rejected_witness :
  (forall r, In r (roles demo_state) -> Role_Name r <> "nonexistent") /\
  AssignRole 1 "nonexistent" (quiet demo_state) =
  (Some ErrRoleNotFound, quiet demo_state) /\
  DeleteRole "nonexistent" (quiet demo_state) =
  (Some ErrRoleNotFound, quiet demo_state).
Proof.
  assert (H : forall r, In r (roles demo_state) ->
                        Role_Name r <> "nonexistent")
    by (intros r [<-|[]]; discriminate).
  split; [exact H|].
  destruct (@unknown_role_rejected demo_state "nonexistent" H)
    as [_ [H2 [_ [_ [_ [_ H7]]]]]].
  split; [apply H2 | exact H7].
Defined.

Lemma unknown_permission_rejected_witness :
  (forall p, In p (permissions demo_state) -> Permission_Name p <> "missing") /\
  CheckPermission 7 "missing" (quiet demo_state) =
  ((false, Some ErrPermissionNotFound), quiet demo_state) /\
  RevokePermission 7 "missing" (quiet demo_state) =
  (Some ErrPermissionNotFound, quiet demo_state).
Proof.
  assert (H : forall p, In p (permissions demo_state) ->
                        Permission_Name p <> "missing")
    by (intros p [<-|[<-|[]]]; discriminate).
  split; [exact H|].
  destruct (@unknown_permission_rejected demo_state "missing" H)
    as [H1 [H2 _]].
  split; [apply H1 | apply H2].
Defined.

Lemma CheckRole_holds_witness :
  role_named demo_state "role-1" = Some (mkRole 1 "role-1" "") /\
  exists b,
    CheckRole 1 "role-1" (quiet demo_state) = ((b, None), quiet demo_state) /\
    (b = true <-> holds_role demo_state 1 1).
Proof.
  assert (H : role_named demo_state "role-1" = Some (mkRole 1 "role-1" ""))
    by reflexivity.
  split; [exact H|].
  exact (@CheckRole_holds demo_state 1 "role-1" _ H).
Defined.

Lemma RevokeRole_idempotent_witness :
  role_named demo_state "role-1" = Some (mkRole 1 "role-1" "") /\
  exists d',
    RevokeRole 1 "role-1" (quiet demo_state) = (None, quiet d') /\
    CheckRole 1 "role-1" (quiet d') = ((false, None), quiet d') /\
    RevokeRole 1 "role-1" (quiet d') = (None, quiet d').
Proof.
  assert (H : role_named demo_state "role-1" = Some (mkRole 1 "role-1" ""))
    by reflexivity.
  split; [exact H|].
  destruct (@RevokeRole_idempotent demo_state 1 "role-1" _ H)
    as [d' [R1 [_ [_ [_ [_ [R2 R3]]]]]]].
  exists d'. split; [exact R1|]. split; [exact R2 | exact R3].
Defined.

Lemma AssignRole_then_RevokeRole_witness :
  role_named linked_state "role-1" = Some (mkRole 1 "role-1" "") /\
  ~ holds_role linked_state 1 1 /\
  exists d1 d2,
    AssignRole 1 "role-1" (quiet linked_state) = (None, quiet d1) /\
    RevokeRole 1 "role-1" (quiet d1) = (None, quiet d2) /\
    user_roles d2 = user_roles linked_state.
Proof.
  assert (H1 : role_named linked_state "role-1" = Some (mkRole 1 "role-1" ""))
    by reflexivity.
  assert (H2 : ~ holds_role linked_state 1 (Role_ID (mkRole 1 "role-1" "")))
    by (intros [ur [[] _]]).
  split; [exact H1|]. split; [exact H2|].
  destruct (@AssignRole_then_RevokeRole linked_state 1 "role-1" _ H1 H2)
    as [d1 [d2 [R1 [_ [R2 [R3 _]]]]]].
  exists d1, d2. split; [exact R1|]. split; [exact R2 | exact R3].
Defined.

Lemma CheckRolePermission_linked_witness :
  role_named demo_state "role-1" = Some (mkRole 1 "role-1" "") /\
  permission_named demo_state "perm-2" = Some (mkPermission 2 "perm-2" "") /\
  exists b,
    CheckRolePermission "role-1" "perm-2" (quiet demo_state) =
    ((b, None), quiet demo_state) /\
    (b = true <-> linked demo_state 1 2).
Proof.
  assert (H1 : role_named demo_state "role-1" = Some (mkRole 1 "role-1" ""))
    by reflexivity.
  assert (H2 : permission_named demo_state "perm-2" =
               Some (mkPermission 2 "perm-2" "")) by reflexivity.
  split; [exact H1|]. split; [exact H2|].
  destruct (@CheckRolePermission_linked demo_state "role-1" "perm-2" _ _ H1 H2)
    as [b [R1 [R2 _]]].
  exists b. split; [exact R1 | exact R2].
Defined.

Lemma AssignPermissions_idempotent_witness :
  role_named created_state "role-1" = Some (mkRole 1 "role-1" "") /\
  exists d1,
    AssignPermissions "role-1" ["perm-1"; "perm-2"; "perm-1"]
      (quiet created_state) = (None, quiet d1) /\
    AssignPermissions "role-1" ["perm-1"; "perm-2"; "perm-1"] (quiet d1) =
    (None, quiet d1).
Proof.
  assert (H1 : role_named created_state "role-1" = Some (mkRole 1 "role-1" ""))
    by reflexivity.
  split; [exact H1|].
  destruct (@AssignPermissions_idempotent created_state "role-1"
              ["perm-1"; "perm-2"; "perm-1"] _
              [mkPermission 1 "perm-1" ""; mkPermission 2 "perm-2" "";
               mkPermission 1 "perm-1" ""] H1)
    as [d1 [R1 [_ R2]]].
  { repeat constructor. }
  exists d1. split; [exact R1 | exact R2].
Defined.

Lemma RevokeRolePermission_unlinks_witness :
  role_named demo_state "role-1" = Some (mkRole 1 "role-1" "") /\
  permission_named demo_state "perm-1" = Some (mkPermission 1 "perm-1" "") /\
  exists d',
    RevokeRolePermission "role-1" "perm-1" (quiet demo_state) =
    (None, quiet d') /\
    CheckRolePermission "role-1" "perm-1" (quiet d') =
    ((false, None), quiet d').
Proof.
  assert (H1 : role_named demo_state "role-1" = Some (mkRole 1 "role-1" ""))
    by reflexivity.
  assert (H2 : permission_named demo_state "perm-1" =
               Some (mkPermission 1 "perm-1" "")) by reflexivity.
  split; [exact H1|]. split; [exact H2|].
  destruct (@RevokeRolePermission_unlinks demo_state "role-1" "perm-1" _ _
              H1 H2) as [d' [R1 [_ [_ [_ [_ [R2 _]]]]]]].
  exists d'. split; [exact R1 | exact R2].
Defined.

Lemma RevokePermission_unlinks_witness :
  permission_named demo_state "perm-1" = Some (mkPermission 1 "perm-1" "") /\
  exists d',
    RevokePermission 1 "perm-1" (quiet demo_state) = (None, quiet d') /\
    CheckPermission 1 "perm-1" (quiet d') = ((false, None), quiet d').
Proof.
  assert (H : permission_named demo_state "perm-1" =
              Some (mkPermission 1 "perm-1" "")) by reflexivity.
  split; [exact H|].
  destruct (@RevokePermission_unlinks demo_state 1 "perm-1" _ H)
    as [d' [R1 [_ [_ [_ [_ [_ R2]]]]]]].
  exists d'. split; [exact R1 | exact R2].
Defined.

Lemma DeletePermission_in_use_witness :
  permission_named demo_state "perm-1" = Some (mkPermission 1 "perm-1" "") /\
  (exists roleID, linked demo_state roleID 1) /\
  DeletePermission "perm-1" (quiet demo_state) =
  (Some ErrPermissionInUse, quiet demo_state).
Proof.
  assert (H1 : permission_named demo_state "perm-1" =
               Some (mkPermission 1 "perm-1" "")) by reflexivity.
  assert (H2 : exists roleID,
             linked demo_state roleID
                    (Permission_ID (mkPermission 1 "perm-1" ""))).
  { exists 1, (mkRolePermission 1 1 1). split; [now left | now split]. }
  split; [exact H1|]. split; [exact H2|].
  exact (@DeletePermission_in_use demo_state "perm-1" _ H1 H2).
Defined.

Lemma DeletePermission_unlinked_witness :
  unique_names created_state /\
  permission_named created_state "perm-1" =
  Some (mkPermission 1 "perm-1" "") /\
  (forall roleID, ~ linked created_state roleID 1) /\
  exists d',
    DeletePermission "perm-1" (quiet created_state) = (None, quiet d') /\
    permission_named d' "perm-1" = None /\
    roles d' = roles created_state.
Proof.
  assert (H1 : unique_names created_state) by apply demo_names_unique.
  assert (H2 : permission_named created_state "perm-1" =
               Some (mkPermission 1 "perm-1" "")) by reflexivity.
  assert (H3 : forall roleID,
             ~ linked created_state roleID
                 (Permission_ID (mkPermission 1 "perm-1" "")))
    by (intros roleID [rp [[] _]]).
  split; [exact H1|]. split; [exact H2|]. split; [exact H3|].
  destruct (@DeletePermission_unlinked created_state "perm-1" _ H1 H2 H3)
    as [d' [R1 [_ [R2 [_ [_ [R3 _]]]]]]].
  exists d'. split; [exact R1|]. split; [exact R3 | exact R2].
Defined.

Lemma DeleteRole_removes_only_the_role_witness :
  unique_names linked_state /\
  role_named linked_state "role-1" = Some (mkRole 1 "role-1" "") /\
  (forall userID, ~ holds_role linked_state userID 1) /\
  exists d',
    DeleteRole "role-1" (quiet linked_state) = (None, quiet d') /\
    permissions d' = permissions linked_state /\
    DeleteRole "role-1" (quiet d') = (Some ErrRoleNotFound, quiet d').
Proof.
  assert (H1 : unique_names linked_state) by apply demo_names_unique.
  assert (H2 : role_named linked_state "role-1" = Some (mkRole 1 "role-1" ""))
    by reflexivity.
  assert (H3 : forall userID,
             ~ holds_role linked_state userID
                 (Role_ID (mkRole 1 "role-1" "")))
    by (intros userID [ur [[] _]]).
  split; [exact H1|]. split; [exact H2|]. split; [exact H3|].
  destruct (@DeleteRole_removes_only_the_role linked_state "role-1" _
              H1 H2 H3) as [d' [R1 [_ [_ [R2 [_ R3]]]]]].
  exists d'. split; [exact R1|]. split; [exact R2 | exact R3].
Defined.

Lemma Create_then_resolves_witness :
  exists d' role,
    CreateRole "role-2" (quiet demo_state) = (None, quiet d') /\
    role_named d' "role-2" = Some role /\
    role_named d' "role-1" = Some (mkRole 1 "role-1" "").
Proof.
  destruct (proj1 (Create_then_resolves demo_state "role-2"))
    as [d' [role [R1 [R2 [_ [R3 _]]]]]].
  exists d', role. split; [exact R1|]. split; [exact R2|].
  apply R3. reflexivity.
Defined.

Lemma listings_agree_with_lookups_witness :
  unique_names demo_state /\
  exists names,
    GetPermissions (quiet demo_state) = ((names, None), quiet demo_state) /\
    List.length names = 2%nat /\ NoDup names.
Proof.
  assert (H : unique_names demo_state) by apply demo_names_unique.
  split; [exact H|].
  destruct (proj2 (listings_agree_with_lookups demo_state))
    as [names [R1 [R2 [_ R3]]]].
  exists names. split; [exact R1|]. split; [exact R2 | exact (R3 H)].
Defined.

Lemma GetUserRoles_agrees_with_CheckRole_witness :
  unique_names demo_state /\
  NoDup (map Role_ID (roles demo_state)) /\
  exists names,
    GetUserRoles 1 (quiet demo_state) = ((names, None), quiet demo_state) /\
    (In "role-1" names <->
     CheckRole 1 "role-1" (quiet demo_state) =
     ((true, None), quiet demo_state)).
Proof.
  assert (H1 : unique_names demo_state) by apply demo_names_unique.
  assert (H2 : NoDup (map Role_ID (roles demo_state)))
    by (simpl; repeat constructor; intros []).
  split; [exact H1|]. split; [exact H2|].
  destruct (@GetUserRoles_agrees_with_CheckRole demo_state 1 H1 H2)
    as [names [R1 R2]].
  exists names. split; [exact R1 | apply R2].
Defined.

Lemma single_write_operations_all_or_nothing_witness :
  fst (DeleteRole "role-1"
         (mkWorld linked_state [None; None; None; Some "reset"])) <> None /\
  db (snd (DeleteRole "role-1"
             (mkWorld linked_state [None; None; None; Some "reset"]))) =
  linked_state.
Proof.
  assert (H : fst (DeleteRole "role-1"
                     (mkWorld linked_state [None; None; None; Some "reset"]))
              <> None) by discriminate.
  split; [exact H|].
  destruct single_write_operations_all_or_nothing
    as [_ [_ [_ [_ [_ [R _]]]]]].
  exact (R "role-1" _ H).
Defined.

Lemma AssignPermissions_not_found_changes_nothing_witness :
  fst (AssignPermissions "role-1" ["perm-1"; "missing"] (quiet created_state)) =
  Some ErrPermissionNotFound /\
  db (snd (AssignPermissions "role-1" ["perm-1"; "missing"]
             (quiet created_state))) = created_state.
Proof.
  assert (H : fst (AssignPermissions "role-1" ["perm-1"; "missing"]
                     (quiet created_state)) = Some ErrPermissionNotFound)
    by reflexivity.
  split; [exact H|].
  exact (@AssignPermissions_not_found_changes_nothing "role-1"
           ["perm-1"; "missing"] (quiet created_state) (or_intror H)).
Defined.

Lemma names_and_keys_kept_witness :
  unique_names demo_state /\ primary_keys demo_state /\
  unique_names
    (db (snd (perform_all [call_CreateRole "role-1"; call_DeleteRole "role-1";
                           call_CreateRole "role-1"]
                (mkWorld demo_state [None; Some "reset"])))) /\
  primary_keys
    (db (snd (perform_all [call_CreateRole "role-1"; call_DeleteRole "role-1";
                           call_CreateRole "role-1"]
                (mkWorld demo_state [None; Some "reset"])))).
Proof.
  assert (H1 : unique_names demo_state) by apply demo_names_unique.
  assert (H2 : primary_keys demo_state).
  { repeat split; simpl; repeat constructor; simpl;
      try (intuition discriminate);
      intros r Hr; simpl in Hr;
      repeat (destruct Hr as [<-|Hr]; [reflexivity|]); destruct Hr. }
  split; [exact H1|]. split; [exact H2|].
  exact (proj1 (names_and_keys_kept
                  [call_CreateRole "role-1"; call_DeleteRole "role-1";
                   call_CreateRole "role-1"])
               (mkWorld demo_state [None; Some "reset"]) (conj H1 H2)).
Defined.

Lemma references_kept_witness :
  ref_integrity empty_DB /\
  exists d',
    perform_all [call_CreateRole "r"; call_CreatePermission "p";
                 call_AssignPermissions "r" ["p"]; call_AssignRole 1 "r";
                 call_RevokeRole 1 "r"; call_DeleteRole "r"]
      (quiet empty_DB) = (tt, quiet d') /\
    ref_integrity d'.
Proof.
  assert (H : ref_integrity empty_DB) by (split; intros x []).
  split; [exact H|].
  exact (@references_kept _ empty_DB H).
Defined.

Lemma RevokePermission_reaches_other_users_witness :
  permission_named shared_state "perm-1" = Some (mkPermission 1 "perm-1" "") /\
  CheckPermission 2 "perm-1" (quiet shared_state) =
  ((true, None), quiet shared_state) /\
  exists d',
    RevokePermission 1 "perm-1" (quiet shared_state) = (None, quiet d') /\
    CheckPermission 2 "perm-1" (quiet d') = ((false, None), quiet d').
Proof.
  assert (H1 : permission_named shared_state "perm-1" =
               Some (mkPermission 1 "perm-1" "")) by reflexivity.
  split; [exact H1|]. split; [reflexivity|].
  apply (@RevokePermission_reaches_other_users shared_state 1 2 "perm-1" _ H1).
  intros roleID [ur [Hur [_ Hid]]] _.
  exists (mkUserRole 1 1 1). split; [now left|]. split; [reflexivity|].
  rewrite <- Hid. destruct Hur as [<-|[<-|[]]]; reflexivity.
Defined.
